(** * Calliope: basic model constraints ([calliope/constraints/base.py])

    A shallow embedding of the constraint rules of [base.py].  Each rule
    of the source is a function from a model and an index tuple to the
    Pyomo object the rule returns: a relational expression over the
    model's decision variables, the [NoConstraint] sentinel, or an
    exception.

    Conventions.
    - Python numbers are exact rationals extended with the two
      infinities and NaN ([num]); rounding of floats is not modelled.
    - [x ** e] is evaluated for whole exponents (durations are hours,
      plant lives are years).  A fractional exponent has in general no
      rational value; [num_pow] then stops with [Inexact], which is not
      a Python exception but the limit of this number model.
    - Arithmetic between plain numbers is carried out when the rule
      runs; arithmetic that involves a decision variable builds an
      expression tree, written here exactly as the rule writes it.
      Pyomo's internal normal form of such trees is not modelled, only
      their value under an assignment of the variables.
    - An entry of a DataFrame is a [numpy.float64]: dividing by a zero
      of that type raises nothing, where dividing by a plain Python zero
      raises [ZeroDivisionError] ([np_div], [py_div]).
    - [utils.memoize] caches pure functions and is therefore omitted. *)

From Stdlib Require Import QArith ZArith List String Ascii Bool Lia Lqa.
Import ListNotations.
Local Open Scope string_scope.
Local Open Scope Q_scope.

(** ** Exceptions and the result of running Python code *)

Inductive exn : Type :=
| ZeroDivisionError
| TypeError
| KeyError
| ValueError
| ModelError
| Inexact.

Inductive result (A : Type) : Type :=
| Ok (a : A)
| Raise (e : exn).
Arguments Ok {A} a.
Arguments Raise {A} e.

Definition bind {A B : Type} (r : result A) (k : A -> result B) : result B :=
  match r with
  | Ok a => k a
  | Raise e => Raise e
  end.

Notation "x <- r ;; k" := (bind r (fun x => k))
  (at level 61, r at next level, right associativity).

Definition exn_eqb (a b : exn) : bool :=
  match a, b with
  | ZeroDivisionError, ZeroDivisionError
  | TypeError, TypeError
  | KeyError, KeyError
  | ValueError, ValueError
  | ModelError, ModelError
  | Inexact, Inexact => true
  | _, _ => false
  end.

(** [try: body  except e: handler] *)
Definition try_except {A : Type} (body : result A) (e : exn) (handler : result A)
  : result A :=
  match body with
  | Ok a => Ok a
  | Raise e' => if exn_eqb e' e then handler else Raise e'
  end.

(** ** Python numbers *)

Inductive num : Type :=
| Fin (q : Q)
| PInf
| NInf
| NaN.

Coercion Fin : Q >-> num.

Definition num_is_zero (a : num) : bool :=
  match a with
  | Fin q => Qeq_bool q 0
  | _ => false
  end.

Definition num_isinf (a : num) : bool :=
  match a with
  | PInf | NInf => true
  | _ => false
  end.

(** Sign of a number that is not NaN. *)
Definition num_sign (a : num) : option comparison :=
  match a with
  | Fin q => Some (q ?= 0)
  | PInf => Some Gt
  | NInf => Some Lt
  | NaN => None
  end.

Definition num_neg (a : num) : num :=
  match a with
  | Fin q => Fin (- q)
  | PInf => NInf
  | NInf => PInf
  | NaN => NaN
  end.

Definition num_add (a b : num) : num :=
  match a, b with
  | Fin p, Fin q => Fin (p + q)
  | NaN, _ | _, NaN => NaN
  | PInf, NInf | NInf, PInf => NaN
  | PInf, _ | _, PInf => PInf
  | NInf, _ | _, NInf => NInf
  end.

Definition num_sub (a b : num) : num :=
  match a, b with
  | Fin p, Fin q => Fin (p - q)
  | _, _ => num_add a (num_neg b)
  end.

Definition inf_of_signs (sa sb : option comparison) : num :=
  match sa, sb with
  | Some Gt, Some Gt | Some Lt, Some Lt => PInf
  | Some Gt, Some Lt | Some Lt, Some Gt => NInf
  | _, _ => NaN
  end.

Definition num_mul (a b : num) : num :=
  match a, b with
  | Fin p, Fin q => Fin (p * q)
  | _, _ => inf_of_signs (num_sign a) (num_sign b)
  end.

(** The quotient where the divisor is not zero.  A zero divisor never
    reaches this function when a rule runs ([num_div], [py_div]); for an
    expression tree evaluated under an assignment it gives NaN. *)
Definition num_quot (a b : num) : num :=
  match a, b with
  | Fin p, Fin q => if Qeq_bool q 0 then NaN else Fin (p / q)
  | NaN, _ | _, NaN => NaN
  | Fin _, _ => Fin 0
  | _, Fin _ => inf_of_signs (num_sign a) (num_sign b)
  | _, _ => NaN
  end.

(** [a / b] with [from __future__ import division]. *)
Definition num_div (a b : num) : result num :=
  if num_is_zero b then Raise ZeroDivisionError else Ok (num_quot a b).

(** The whole number a rational stands for, if it is one. *)
Definition whole (q : Q) : option Z :=
  if (Z.rem (Qnum q) (Zpos (Qden q)) =? 0)%Z
  then Some (Qnum q / Zpos (Qden q))%Z
  else None.

(** [a ** b] *)
Definition num_pow (a b : num) : result num :=
  match b with
  | Fin e =>
      match whole e with
      | Some z =>
          match a with
          | Fin p =>
              if Qeq_bool p 0 && (z <? 0)%Z then Raise ZeroDivisionError
              else Ok (Fin (Qpower p z))
          | PInf =>
              Ok (if (z =? 0)%Z then Fin 1 else if (0 <? z)%Z then PInf else Fin 0)
          | NInf =>
              Ok (if (z =? 0)%Z then Fin 1
                  else if (0 <? z)%Z then (if Z.even z then PInf else NInf)
                  else Fin 0)
          | NaN => Ok (if (z =? 0)%Z then Fin 1 else NaN)
          end
      | None => Raise Inexact
      end
  | _ => Raise Inexact
  end.

(** [sum(...)] over plain numbers: starts from 0 and adds from the left. *)
Definition num_sum (l : list num) : num :=
  fold_left num_add l (Fin 0).

Definition num_eqb (a b : num) : bool :=
  match a, b with
  | Fin p, Fin q => Qeq_bool p q
  | PInf, PInf | NInf, NInf => true
  | _, _ => false
  end.

Definition num_leb (a b : num) : bool :=
  match a, b with
  | Fin p, Fin q => Qle_bool p q
  | NaN, _ | _, NaN => false
  | NInf, _ | _, PInf => true
  | _, _ => false
  end.

Definition num_ltb (a b : num) : bool :=
  match a, b with
  | Fin p, Fin q => negb (Qle_bool q p)
  | NaN, _ | _, NaN => false
  | PInf, _ | _, NInf => false
  | _, _ => true
  end.

(** ** Option values

    [model.get_option] returns whatever the configuration holds: a
    number, a boolean or a string. *)

Inductive value : Type :=
| VNum (n : num)
| VBool (b : bool)
| VStr (s : string).

(** [if v:] *)
Definition truthy (v : value) : bool :=
  match v with
  | VNum (Fin q) => negb (Qeq_bool q 0)
  | VNum _ => true
  | VBool b => b
  | VStr s => negb (String.eqb s "")
  end.

(** [v is True] and [v is False] *)
Definition is_True (v : value) : bool :=
  match v with VBool true => true | _ => false end.

Definition is_False (v : value) : bool :=
  match v with VBool false => true | _ => false end.

(** A value used as a number: booleans are the integers 0 and 1, a
    string is a type error. *)
Definition to_num (v : value) : result num :=
  match v with
  | VNum n => Ok n
  | VBool b => Ok (Fin (if b then 1 else 0))
  | VStr _ => Raise TypeError
  end.

(** [v == n] for a number [n] *)
Definition py_eq_num (v : value) (n : num) : bool :=
  match v with
  | VNum a => num_eqb a n
  | VBool b => num_eqb (Fin (if b then 1 else 0)) n
  | VStr _ => false
  end.

(** [c == v] for a string [c] *)
Definition py_eq_str (c : string) (v : value) : bool :=
  match v with
  | VStr s => String.eqb c s
  | _ => false
  end.

(** [np.isinf(v)] *)
Definition np_isinf (v : value) : result bool :=
  n <- to_num v ;; Ok (num_isinf n).

(** ** Index sets, decision variables and expressions *)

Definition tech := string.
Definition loc := string.
Definition carrier := string.
Definition cost_class := string.
Definition timestep := Z.

(** The decision variables declared by [base.py], [m.s[y, x, t]] and
    so on. *)
Inductive var : Type :=
| m_s (y : tech) (x : loc) (t : timestep)
| m_rs (y : tech) (x : loc) (t : timestep)
| m_r_area (y : tech) (x : loc)
| m_es_prod (c : carrier) (y : tech) (x : loc) (t : timestep)
| m_es_con (c : carrier) (y : tech) (x : loc) (t : timestep)
| m_s_cap (y : tech) (x : loc)
| m_r_cap (y : tech) (x : loc)
| m_e_cap (y : tech) (x : loc)
| m_cost (y : tech) (x : loc) (k : cost_class)
| m_cost_con (y : tech) (x : loc) (k : cost_class)
| m_cost_op (y : tech) (x : loc) (k : cost_class).

(** The [within=] argument of [cp.Var], read as the bounds it gives the
    variable: none for [Reals], a lower bound 0 for [NonNegativeReals],
    an upper bound 0 for [NegativeReals] (the rules themselves constrain
    such a variable to [== 0]). *)
Inductive domain : Type :=
| Reals
| NonNegativeReals
| NegativeReals.

Definition var_domain (v : var) : domain :=
  match v with
  | m_rs _ _ _ => Reals
  | m_es_con _ _ _ _ => NegativeReals
  | _ => NonNegativeReals
  end.

Inductive expr : Type :=
| Const (n : num)
| V (v : var)
| Add (a b : expr)
| Sub (a b : expr)
| Mul (a b : expr)
| Div (a b : expr).

(** What a Python arithmetic expression of a rule evaluates to: a plain
    number, or an expression over decision variables. *)
Inductive pyobj : Type :=
| PN (n : num)
| PE (e : expr).

Definition to_expr (a : pyobj) : expr :=
  match a with
  | PN n => Const n
  | PE e => e
  end.

Definition py_add (a b : pyobj) : pyobj :=
  match a, b with
  | PN p, PN q => PN (num_add p q)
  | _, _ => PE (Add (to_expr a) (to_expr b))
  end.

Definition py_sub (a b : pyobj) : pyobj :=
  match a, b with
  | PN p, PN q => PN (num_sub p q)
  | _, _ => PE (Sub (to_expr a) (to_expr b))
  end.

Definition py_mul (a b : pyobj) : pyobj :=
  match a, b with
  | PN p, PN q => PN (num_mul p q)
  | _, _ => PE (Mul (to_expr a) (to_expr b))
  end.

(** Division by a plain Python number that is zero raises, for numbers
    and for expressions alike (the rule [c_s_balance_pc_rule] catches
    it). *)
Definition py_div (a b : pyobj) : result pyobj :=
  match b with
  | PN d =>
      if num_is_zero d then Raise ZeroDivisionError
      else match a with
           | PN p => Ok (PN (num_quot p d))
           | PE e => Ok (PE (Div e (Const d)))
           end
  | PE e => Ok (PE (Div (to_expr a) e))
  end.

(** Division by a [numpy.float64], which is what an entry of a
    DataFrame is.  A zero divisor raises nothing: a number becomes
    infinite or NaN, and an expression is left with an infinite
    coefficient. *)
Definition np_div (a : pyobj) (d : num) : result pyobj :=
  if num_is_zero d then
    Ok (match a with
        | PN p => PN (num_mul PInf p)
        | PE e => PE (Mul (Const PInf) e)
        end)
  else py_div a (PN d).

(** [a / d], where [numpy] tells whether [d] is a [numpy.float64]. *)
Definition py_truediv (a : pyobj) (d : num) (numpy : bool) : result pyobj :=
  if numpy then np_div a d else py_div a (PN d).

(** [sum(...)]: starts from the integer 0 and adds from the left. *)
Definition py_sum (l : list pyobj) : pyobj :=
  fold_left py_add l (PN (Fin 0)).

(** Relational expressions, and what a rule may return. *)
Inductive constraint : Type :=
| CEq (a b : expr)
| CLe (a b : expr)
| CGe (a b : expr).

Inductive rule_out : Type :=
| NoConstraint
| Constr (c : constraint)
| PyBool (b : bool)
| PyNone.

(** [a == b], [a <= b], [a >= b]: a relational expression as soon as a
    side holds a decision variable, a Python boolean otherwise. *)
Definition py_eq (a b : pyobj) : rule_out :=
  match a, b with
  | PN p, PN q => PyBool (num_eqb p q)
  | _, _ => Constr (CEq (to_expr a) (to_expr b))
  end.

Definition py_le (a b : pyobj) : rule_out :=
  match a, b with
  | PN p, PN q => PyBool (num_leb p q)
  | _, _ => Constr (CLe (to_expr a) (to_expr b))
  end.

Definition py_ge (a b : pyobj) : rule_out :=
  match a, b with
  | PN p, PN q => PyBool (num_leb q p)
  | _, _ => Constr (CGe (to_expr a) (to_expr b))
  end.

(** ** Value of an expression and satisfaction of a constraint *)

Definition assignment := var -> Q.

Fixpoint eval (sol : assignment) (e : expr) : num :=
  match e with
  | Const n => n
  | V v => Fin (sol v)
  | Add a b => num_add (eval sol a) (eval sol b)
  | Sub a b => num_sub (eval sol a) (eval sol b)
  | Mul a b => num_mul (eval sol a) (eval sol b)
  | Div a b => num_quot (eval sol a) (eval sol b)
  end.

Definition sat (sol : assignment) (c : constraint) : bool :=
  match c with
  | CEq a b => num_eqb (eval sol a) (eval sol b)
  | CLe a b => num_leb (eval sol a) (eval sol b)
  | CGe a b => num_leb (eval sol b) (eval sol a)
  end.

Definition in_domain (sol : assignment) (v : var) : bool :=
  match var_domain v with
  | Reals => true
  | NonNegativeReals => Qle_bool 0 (sol v)
  | NegativeReals => Qle_bool (sol v) 0
  end.

(** ** The model *)

(** A row of the [locations] table of [model.data]. *)
Record location_row : Type := {
  index : loc;
  _level : num;
  _within : value;
  allowed : tech -> num
}.

Record Model : Type := {
  (* sets of [model.m] *)
  m_y : list tech;
  m_x : list loc;
  m_t : list timestep;
  m_c : list carrier;
  m_k : list cost_class;
  m_y_pc : list tech;
  m_y_def_r : list tech;
  m_y_def_e_eff : list tech;
  m_y_trans : list tech;
  m_y_conv : list tech;
  (* parameters of [model.m] *)
  m_r : tech -> loc -> timestep -> num;
  m_e_eff : tech -> loc -> timestep -> num;
  m_time_res : timestep -> num;
  (* [model.data] *)
  d_e_eff : tech -> loc -> num;
  d_locations : list location_row;
  d_transmission_y : list tech;
  d_s_init : option (loc -> tech -> num);
  (* [model.mode] *)
  mode : string;
  (* [model.get_option(option, x=None, default=None)] *)
  get_option : string -> option loc -> option string -> value;
  (* [model.get_eff_ref(var, y, x=None)] *)
  get_eff_ref : string -> tech -> option loc -> num;
  (* [transmission.get_remotes(y, x)] *)
  get_remotes : tech -> loc -> tech * loc
}.

(** [y in some_set] *)
Definition mem (a : string) (l : list string) : bool :=
  existsb (String.eqb a) l.

(** A value used as an index of a variable. *)
Definition to_str (v : value) : result string :=
  match v with
  | VStr s => Ok s
  | _ => Raise KeyError
  end.

(** Position of [t] in an ordered set, counted from 0. *)
Fixpoint position (l : list timestep) (t : timestep) : option nat :=
  match l with
  | [] => None
  | a :: rest =>
      if (a =? t)%Z then Some O
      else match position rest t with
           | Some n => Some (S n)
           | None => None
           end
  end.

(** [m.t.order_dict[t]]: positions of an ordered Pyomo set count from 1. *)
Definition order_dict (l : list timestep) (t : timestep) : result nat :=
  match position l t with
  | Some n => Ok (S n)
  | None => Raise KeyError
  end.

(** Modelled from the spec: [model.prev] belongs to the model class,
    which is not among the sources.  The timesteps form an ordered,
    non-cyclic sequence, and [prev(t)] is the member just before [t];
    the first member has none. *)
Definition prev (model : Model) (t : timestep) : result timestep :=
  match position (m_t model) t with
  | Some (S n) =>
      match nth_error (m_t model) n with
      | Some t' => Ok t'
      | None => Raise ModelError
      end
  | _ => Raise ModelError
  end.

(** [d.locations.ix[x, y]] *)
Definition locations_ix (model : Model) (x : loc) (y : tech) : result num :=
  match find (fun row => String.eqb (index row) x) (d_locations model) with
  | Some row => Ok (allowed row y)
  | None => Raise KeyError
  end.

(** [cp.Constraint(index sets)]: the rule is called on every index
    tuple; [NoConstraint] adds nothing, a relational expression adds a
    constraint, anything else is rejected. *)
Fixpoint Constraint {I : Type} (idx : list I) (rule : I -> result rule_out)
  : result (list constraint) :=
  match idx with
  | [] => Ok []
  | i :: rest =>
      r <- rule i ;;
      match r with
      | NoConstraint => Constraint rest rule
      | Constr c => cs <- Constraint rest rule ;; Ok (c :: cs)
      | PyBool _ | PyNone => Raise ValueError
      end
  end.

Definition idx2 {A B : Type} (a : list A) (b : list B) : list (A * B) :=
  list_prod a b.

Definition idx3 {A B C : Type} (a : list A) (b : list B) (c : list C)
  : list (A * (B * C)) :=
  list_prod a (list_prod b c).

Definition idx4 {A B C D : Type} (a : list A) (b : list B) (c : list C)
  (d : list D) : list (A * (B * (C * D))) :=
  list_prod a (list_prod b (list_prod c d)).

(** ** [node_energy_balance] *)

Definition get_e_eff (model : Model) (y : tech) (x : loc) (t : timestep) : num :=
  if mem y (m_y_def_e_eff model) then m_e_eff model y x t
  else d_e_eff model y x.

(** Whether what [get_e_eff] returns is a [numpy.float64]: the entry
    [d.e_eff[y][x][0]] of a DataFrame is one, the value of the Param
    [m.e_eff[y, x, t]] is a plain number. *)
Definition e_eff_is_numpy (model : Model) (y : tech) : bool :=
  negb (mem y (m_y_def_e_eff model)).

Definition c_rs_rule (model : Model) (y : tech) (x : loc) (t : timestep)
  : result rule_out :=
  if negb (mem y (m_y_def_r model)) then Ok NoConstraint
  else
    let this_r := m_r model y x t in
    r_scale <- to_num (get_option model (y ++ ".constraints.r_scale") (Some x) None) ;;
    r_eff <- to_num (get_option model (y ++ ".constraints.r_eff") None None) ;;
    let r_avail :=
      py_mul (py_mul (py_mul (PN this_r) (PN r_scale)) (PE (V (m_r_area y x))))
             (PN r_eff) in
    if truthy (get_option model (y ++ ".constraints.force_r") None None)
    then Ok (py_eq (PE (V (m_rs y x t))) r_avail)
    else if num_ltb (Fin 0) this_r
    then Ok (py_le (PE (V (m_rs y x t))) r_avail)
    else Ok (py_ge (PE (V (m_rs y x t))) r_avail).

Definition c_s_balance_transmission_rule (model : Model) (y : tech) (x : loc)
  (t : timestep) : result rule_out :=
  let '(y_remote, x_remote) := get_remotes model y x in
  if mem y_remote (d_transmission_y model) then
    c <- to_str (get_option model (y ++ ".carrier") None None) ;;
    Ok (py_eq (PE (V (m_es_prod c y x t)))
              (py_mul (py_mul (PN (Fin (-1))) (PE (V (m_es_con c y_remote x_remote t))))
                      (PN (get_e_eff model y x t))))
  else Ok NoConstraint.

Definition c_s_balance_conversion_rule (model : Model) (y : tech) (x : loc)
  (t : timestep) : result rule_out :=
  c_prod <- to_str (get_option model (y ++ ".carrier") None None) ;;
  c_source <- to_str (get_option model (y ++ ".source_carrier") None None) ;;
  Ok (py_eq (PE (V (m_es_prod c_prod y x t)))
            (py_mul (py_mul (PN (Fin (-1))) (PE (V (m_es_con c_source y x t))))
                    (PN (get_e_eff model y x t)))).

(** The local [s_minus_one] of [c_s_balance_pc_rule], cases B.1 to B.3. *)
Definition s_minus_one (model : Model) (y : tech) (x : loc) (t : timestep)
  : result pyobj :=
  pos <- order_dict (m_t model) t ;;
  if (1 <? pos)%nat then
    s_loss <- to_num (get_option model (y ++ ".constraints.s_loss") None None) ;;
    t_prev <- prev model t ;;
    keep <- num_pow (num_sub (Fin 1) s_loss) (m_time_res model t_prev) ;;
    t_prev' <- prev model t ;;
    Ok (py_mul (PN keep) (PE (V (m_s y x t_prev'))))
  else
    match String.eqb (mode model) "operate", d_s_init model with
    | true, Some s_init => Ok (PN (s_init x y))
    | _, _ =>
        s_init <- to_num (get_option model (y ++ ".constraints.s_init") (Some x) None) ;;
        Ok (PN s_init)
    end.

Definition c_s_balance_pc_rule (model : Model) (y : tech) (x : loc) (t : timestep)
  : result rule_out :=
  (* es_prod *)
  es_prod <-
    try_except
      (py_truediv
         (py_sum (map (fun c => PE (V (m_es_prod c y x t))) (m_c model)))
         (get_e_eff model y x t) (e_eff_is_numpy model y))
      ZeroDivisionError
      (Ok (PN (Fin 0))) ;;
  (* A) Case where no storage allowed *)
  if py_eq_num (get_option model (y ++ ".constraints.s_cap_max") None None) (Fin 0)
  then
    Ok (py_eq (PN (Fin 0))
              (py_sub (py_sub (PE (V (m_rs y x t))) es_prod)
                      (py_mul (py_sum (map (fun c => PE (V (m_es_con c y x t)))
                                           (m_c model)))
                              (PN (get_e_eff model y x t)))))
  else
    (* B) Case where storage is allowed *)
    s_minus_one <- s_minus_one model y x t ;;
    Ok (py_eq (PE (V (m_s y x t)))
              (py_sub (py_sub (py_add s_minus_one (PE (V (m_rs y x t)))) es_prod)
                      (py_mul (py_sum (map (fun c => PE (V (m_es_con c y x t)))
                                           (m_c model)))
                              (PN (get_e_eff model y x t))))).

Definition node_energy_balance (model : Model) : result (list constraint) :=
  c_rs <- Constraint (idx3 (m_y_def_r model) (m_x model) (m_t model))
            (fun '(y, (x, t)) => c_rs_rule model y x t) ;;
  c_s_balance_transmission <-
    Constraint (idx3 (m_y_trans model) (m_x model) (m_t model))
      (fun '(y, (x, t)) => c_s_balance_transmission_rule model y x t) ;;
  c_s_balance_conversion <-
    Constraint (idx3 (m_y_conv model) (m_x model) (m_t model))
      (fun '(y, (x, t)) => c_s_balance_conversion_rule model y x t) ;;
  c_s_balance_pc <-
    Constraint (idx3 (m_y_pc model) (m_x model) (m_t model))
      (fun '(y, (x, t)) => c_s_balance_pc_rule model y x t) ;;
  Ok (c_rs ++ c_s_balance_transmission ++ c_s_balance_conversion
        ++ c_s_balance_pc)%list.

(** ** [node_constraints_build] *)

Definition c_s_cap_rule (model : Model) (y : tech) (x : loc) : result rule_out :=
  let max_force := get_option model (y ++ ".constraints.s_cap_max_force") (Some x) None in
  (* Get s_cap_max *)
  s_cap_max <-
    (if truthy (get_option model (y ++ ".constraints.use_s_time") (Some x) None)
     then
       s_time_max <- to_num (get_option model (y ++ ".constraints.s_time_max") (Some x) None) ;;
       e_cap_max <- to_num (get_option model (y ++ ".constraints.e_cap_max") (Some x) None) ;;
       let e_eff_ref := get_eff_ref model "e" y None in
       num_div (num_mul s_time_max e_cap_max) e_eff_ref
     else to_num (get_option model (y ++ ".constraints.s_cap_max") (Some x) None)) ;;
  (* Apply constraint *)
  if truthy max_force || String.eqb (mode model) "operate"
  then Ok (py_eq (PE (V (m_s_cap y x))) (PN s_cap_max))
  else if String.eqb (mode model) "plan"
  then Ok (py_le (PE (V (m_s_cap y x))) (PN s_cap_max))
  else Ok PyNone.

Definition c_r_cap_rule (model : Model) (y : tech) (x : loc) : result rule_out :=
  let r_cap_max := get_option model (y ++ ".constraints.r_cap_max") (Some x) None in
  inf <- np_isinf r_cap_max ;;
  if inf then Ok NoConstraint
  else
    r_cap_max <- to_num r_cap_max ;;
    if String.eqb (mode model) "plan"
    then Ok (py_le (PE (V (m_r_cap y x))) (PN r_cap_max))
    else if String.eqb (mode model) "operate"
    then Ok (py_eq (PE (V (m_r_cap y x))) (PN r_cap_max))
    else Ok PyNone.

Definition c_r_area_rule (model : Model) (y : tech) (x : loc) : result rule_out :=
  let area_per_cap := get_option model (y ++ ".constraints.r_area_per_e_cap") None None in
  if truthy area_per_cap then
    let eff_ref := get_eff_ref model "e" y (Some x) in
    area_per_cap <- to_num area_per_cap ;;
    ratio <- num_div area_per_cap eff_ref ;;
    Ok (py_eq (PE (V (m_r_area y x))) (py_mul (PE (V (m_e_cap y x))) (PN ratio)))
  else
    let r_area_max := get_option model (y ++ ".constraints.r_area_max") (Some x) None in
    if is_False r_area_max
    then Ok (py_eq (PE (V (m_r_area y x))) (PN (Fin 1)))
    else if String.eqb (mode model) "plan"
    then r_area_max <- to_num r_area_max ;;
         Ok (py_le (PE (V (m_r_area y x))) (PN r_area_max))
    else if String.eqb (mode model) "operate"
    then r_area_max <- to_num r_area_max ;;
         Ok (py_eq (PE (V (m_r_area y x))) (PN r_area_max))
    else Ok PyNone.

Definition c_e_cap_rule (model : Model) (y : tech) (x : loc) : result rule_out :=
  let e_cap_max := get_option model (y ++ ".constraints.e_cap_max") (Some x) None in
  let e_cap_max_scale :=
    get_option model (y ++ ".constraints.e_cap_max_scale") (Some x) None in
  let e_cap_max_force :=
    get_option model (y ++ ".constraints.e_cap_max_force") (Some x) None in
  (* First check whether this tech is allowed at this location *)
  permit <- locations_ix model x y ;;
  if negb (num_eqb permit (Fin 1))
  then Ok (py_eq (PE (V (m_e_cap y x))) (PN (Fin 0)))
  else
    inf <- np_isinf e_cap_max ;;
    if inf then Ok NoConstraint
    else if truthy e_cap_max_force || String.eqb (mode model) "operate"
    then e_cap_max <- to_num e_cap_max ;;
         e_cap_max_scale <- to_num e_cap_max_scale ;;
         Ok (py_eq (PE (V (m_e_cap y x))) (PN (num_mul e_cap_max e_cap_max_scale)))
    else if String.eqb (mode model) "plan"
    then e_cap_max <- to_num e_cap_max ;;
         e_cap_max_scale <- to_num e_cap_max_scale ;;
         Ok (py_le (PE (V (m_e_cap y x))) (PN (num_mul e_cap_max e_cap_max_scale)))
    else Ok PyNone.

Definition node_constraints_build (model : Model) : result (list constraint) :=
  c_s_cap <- Constraint (idx2 (m_y_pc model) (m_x model))
               (fun '(y, x) => c_s_cap_rule model y x) ;;
  c_r_cap <- Constraint (idx2 (m_y_def_r model) (m_x model))
               (fun '(y, x) => c_r_cap_rule model y x) ;;
  c_r_area <- Constraint (idx2 (m_y_def_r model) (m_x model))
                (fun '(y, x) => c_r_area_rule model y x) ;;
  c_e_cap <- Constraint (idx2 (m_y model) (m_x model))
               (fun '(y, x) => c_e_cap_rule model y x) ;;
  Ok (c_s_cap ++ c_r_cap ++ c_r_area ++ c_e_cap)%list.

(** ** [node_constraints_operational] *)

Definition c_rs_max_upper_rule (model : Model) (y : tech) (x : loc) (t : timestep)
  : result rule_out :=
  r_eff <- to_num (get_option model (y ++ ".constraints.r_eff") None None) ;;
  per_eff <- py_div (PE (V (m_r_cap y x))) (PN r_eff) ;;
  Ok (py_le (PE (V (m_rs y x t))) (py_mul (PN (m_time_res model t)) per_eff)).

Definition c_rs_max_lower_rule (model : Model) (y : tech) (x : loc) (t : timestep)
  : result rule_out :=
  r_eff <- to_num (get_option model (y ++ ".constraints.r_eff") None None) ;;
  per_eff <- py_div (PE (V (m_r_cap y x))) (PN r_eff) ;;
  Ok (py_ge (PE (V (m_rs y x t)))
            (py_mul (py_mul (PN (Fin (-1))) (PN (m_time_res model t))) per_eff)).

Definition c_es_prod_max_rule (model : Model) (c : carrier) (y : tech) (x : loc)
  (t : timestep) : result rule_out :=
  if py_eq_str c (get_option model (y ++ ".carrier") None None)
  then Ok (py_le (PE (V (m_es_prod c y x t)))
                 (py_mul (PN (m_time_res model t)) (PE (V (m_e_cap y x)))))
  else Ok (py_eq (PE (V (m_es_prod c y x t))) (PN (Fin 0))).

Definition c_es_prod_min_rule (model : Model) (c : carrier) (y : tech) (x : loc)
  (t : timestep) : result rule_out :=
  let min_use := get_option model (y ++ ".constraints.e_cap_min_use") None None in
  if truthy min_use && py_eq_str c (get_option model (y ++ ".carrier") None None)
  then
    min_use <- to_num min_use ;;
    Ok (py_ge (PE (V (m_es_prod c y x t)))
              (py_mul (py_mul (PN (m_time_res model t)) (PE (V (m_e_cap y x))))
                      (PN min_use)))
  else Ok NoConstraint.

Definition c_es_con_max_rule (model : Model) (c : carrier) (y : tech) (x : loc)
  (t : timestep) : result rule_out :=
  if is_True (get_option model (y ++ ".constraints.e_can_be_negative") None None)
     && py_eq_str c (get_option model (y ++ ".carrier") None None)
  then Ok (py_ge (PE (V (m_es_con c y x t)))
                 (py_mul (py_mul (PN (Fin (-1))) (PN (m_time_res model t)))
                         (PE (V (m_e_cap y x)))))
  else Ok (py_eq (PE (V (m_es_con c y x t))) (PN (Fin 0))).

Definition c_s_max_rule (model : Model) (y : tech) (x : loc) (t : timestep)
  : result rule_out :=
  Ok (py_le (PE (V (m_s y x t))) (PE (V (m_s_cap y x)))).

Definition node_constraints_operational (model : Model)
  : result (list constraint) :=
  c_rs_max_upper <-
    Constraint (idx3 (m_y_def_r model) (m_x model) (m_t model))
      (fun '(y, (x, t)) => c_rs_max_upper_rule model y x t) ;;
  c_rs_max_lower <-
    Constraint (idx3 (m_y_def_r model) (m_x model) (m_t model))
      (fun '(y, (x, t)) => c_rs_max_lower_rule model y x t) ;;
  c_es_prod_max <-
    Constraint (idx4 (m_c model) (m_y model) (m_x model) (m_t model))
      (fun '(c, (y, (x, t))) => c_es_prod_max_rule model c y x t) ;;
  c_es_prod_min <-
    Constraint (idx4 (m_c model) (m_y model) (m_x model) (m_t model))
      (fun '(c, (y, (x, t))) => c_es_prod_min_rule model c y x t) ;;
  c_es_con_max <-
    Constraint (idx4 (m_c model) (m_y model) (m_x model) (m_t model))
      (fun '(c, (y, (x, t))) => c_es_con_max_rule model c y x t) ;;
  c_s_max <-
    Constraint (idx3 (m_y_pc model) (m_x model) (m_t model))
      (fun '(y, (x, t)) => c_s_max_rule model y x t) ;;
  Ok (c_rs_max_upper ++ c_rs_max_lower ++ c_es_prod_max ++ c_es_prod_min
        ++ c_es_con_max ++ c_s_max)%list.

(** ** [transmission_constraints] *)

Definition c_transmission_capacity_rule (model : Model) (y : tech) (x : loc)
  : result rule_out :=
  let '(y_remote, x_remote) := get_remotes model y x in
  if mem y_remote (d_transmission_y model)
  then Ok (py_eq (PE (V (m_e_cap y x))) (PE (V (m_e_cap y_remote x_remote))))
  else Ok NoConstraint.

Definition transmission_constraints (model : Model) : result (list constraint) :=
  Constraint (idx2 (m_y_trans model) (m_x model))
    (fun '(y, x) => c_transmission_capacity_rule model y x).

(** ** [node_costs] *)

Definition _depreciation_rate (model : Model) (y : tech) (k : cost_class)
  : result num :=
  let interest :=
    get_option model (y ++ ".depreciation.interest." ++ k) None
               (Some (y ++ ".depreciation.interest.default")) in
  let plant_life := get_option model (y ++ ".depreciation.plant_life") None None in
  if py_eq_num interest (Fin 0) then
    plant_life <- to_num plant_life ;;
    num_div (Fin 1) plant_life
  else
    interest <- to_num interest ;;
    plant_life <- to_num plant_life ;;
    growth <- num_pow (num_add (Fin 1) interest) plant_life ;;
    growth' <- num_pow (num_add (Fin 1) interest) plant_life ;;
    num_div (num_mul interest growth) (num_sub growth' (Fin 1)).

Definition _cost (model : Model) (cost : string) (y : tech) (k : cost_class)
  : value :=
  get_option model (y ++ ".costs." ++ k ++ "." ++ cost) None
             (Some (y ++ ".costs.default." ++ cost)).

Definition c_cost_rule (model : Model) (y : tech) (x : loc) (k : cost_class)
  : result rule_out :=
  Ok (py_eq (PE (V (m_cost y x k)))
            (py_add (PE (V (m_cost_con y x k))) (PE (V (m_cost_op y x k))))).

Definition c_cost_con_rule (model : Model) (y : tech) (x : loc) (k : cost_class)
  : result rule_out :=
  cost_s_cap <-
    (if mem y (m_y_pc model)
     then c <- to_num (_cost model "s_cap" y k) ;;
          Ok (py_mul (PN c) (PE (V (m_s_cap y x))))
     else Ok (PN (Fin 0))) ;;
  cost_r <-
    (if mem y (m_y_def_r model)
     then c_cap <- to_num (_cost model "r_cap" y k) ;;
          c_area <- to_num (_cost model "r_area" y k) ;;
          Ok (py_mul (PN c_cap) (PE (V (m_r_cap y x))),
              py_mul (PN c_area) (PE (V (m_r_area y x))))
     else Ok (PN (Fin 0), PN (Fin 0))) ;;
  let '(cost_r_cap, cost_r_area) := cost_r in
  dep <- _depreciation_rate model y k ;;
  years <- num_div (num_sum (map (m_time_res model) (m_t model))) (Fin 8760) ;;
  c_e_cap <- to_num (_cost model "e_cap" y k) ;;
  Ok (py_eq (PE (V (m_cost_con y x k)))
            (py_mul (py_mul (PN dep) (PN years))
                    (py_add (py_add (py_add cost_s_cap cost_r_cap) cost_r_area)
                            (py_mul (PN c_e_cap) (PE (V (m_e_cap y x))))))).

Definition c_cost_op_rule (model : Model) (y : tech) (x : loc) (k : cost_class)
  : result rule_out :=
  carrier <- to_str (get_option model (y ++ ".carrier") None None) ;;
  om_frac <- to_num (_cost model "om_frac" y k) ;;
  om_fixed <- to_num (_cost model "om_fixed" y k) ;;
  om_var <- to_num (_cost model "om_var" y k) ;;
  om_fuel <- to_num (_cost model "om_fuel" y k) ;;
  Ok (py_eq (PE (V (m_cost_op y x k)))
        (py_add
           (py_add
              (py_add (py_mul (PN om_frac) (PE (V (m_cost_con y x k))))
                      (py_mul (PN om_fixed) (PE (V (m_e_cap y x)))))
              (py_mul (PN om_var)
                      (py_sum (map (fun t => PE (V (m_es_prod carrier y x t)))
                                   (m_t model)))))
           (py_mul (PN om_fuel)
                   (py_sum (map (fun t => PE (V (m_rs y x t))) (m_t model)))))).

Definition node_costs (model : Model) : result (list constraint) :=
  c_cost <- Constraint (idx3 (m_y model) (m_x model) (m_k model))
              (fun '(y, (x, k)) => c_cost_rule model y x k) ;;
  c_cost_con <- Constraint (idx3 (m_y model) (m_x model) (m_k model))
                  (fun '(y, (x, k)) => c_cost_con_rule model y x k) ;;
  c_cost_op <- Constraint (idx3 (m_y model) (m_x model) (m_k model))
                 (fun '(y, (x, k)) => c_cost_op_rule model y x k) ;;
  Ok (c_cost ++ c_cost_con ++ c_cost_op)%list.

(** ** [model_constraints] *)

Definition get_parents (model : Model) (level : num) : list loc :=
  map index (filter (fun row => num_eqb (_level row) level) (d_locations model)).

Definition get_children (model : Model) (parent : loc) : list loc :=
  map index (filter (fun row => py_eq_str parent (_within row)) (d_locations model)).

Definition c_system_balance_rule (model : Model) (c : carrier) (x : loc)
  (t : timestep) : result rule_out :=
  let parents := get_parents model (Fin 1) in
  if negb (mem x parents) then Ok NoConstraint
  else
    let fam := (get_children model x ++ [x])%list in
    let produced :=
      py_sum (flat_map (fun xs => map (fun y => PE (V (m_es_prod c y xs t)))
                                      (m_y model)) fam) in
    let consumed :=
      py_sum (flat_map (fun xs => map (fun y => PE (V (m_es_con c y xs t)))
                                      (m_y model)) fam) in
    if String.eqb c "power"
    then Ok (py_eq (py_add produced consumed) (PN (Fin 0)))
    else Ok (py_ge (py_add produced consumed) (PN (Fin 0))).

Definition model_constraints (model : Model) : result (list constraint) :=
  Constraint (idx3 (m_c model) (m_x model) (m_t model))
    (fun '(c, (x, t)) => c_system_balance_rule model c x t).

(** ** [model_objective] *)

Definition obj_rule (model : Model) : result pyobj :=
  fold_left
    (fun acc y =>
       total <- acc ;;
       weight <- to_num (get_option model (y ++ ".weight") None None) ;;
       Ok (py_add total
             (py_mul (PN weight)
                     (py_sum (map (fun x => PE (V (m_cost y x "monetary")))
                                  (m_x model))))))
    (m_y model) (Ok (PN (Fin 0))).

(** ** The generated problem and its feasible points *)

(** Modelled from the spec: the driver that applies the generators is
    not among the sources.  Energy balance, capacity and cost
    constraints are generated first, then the system balance; the
    docstrings of [base.py] give the same order of dependence. *)
Definition generate_model (model : Model) : result (list constraint) :=
  balance <- node_energy_balance model ;;
  build <- node_constraints_build model ;;
  operational <- node_constraints_operational model ;;
  transmission <- transmission_constraints model ;;
  costs <- node_costs model ;;
  system <- model_constraints model ;;
  Ok (balance ++ build ++ operational ++ transmission ++ costs ++ system)%list.

(** The variables declared by [cp.Var] over their index sets. *)
Definition declared_vars (model : Model) : list var :=
  (map (fun '(y, (x, t)) => m_s y x t)
       (idx3 (m_y_pc model) (m_x model) (m_t model))
   ++ map (fun '(y, (x, t)) => m_rs y x t)
       (idx3 (m_y model) (m_x model) (m_t model))
   ++ map (fun '(y, x) => m_r_area y x) (idx2 (m_y_def_r model) (m_x model))
   ++ map (fun '(c, (y, (x, t))) => m_es_prod c y x t)
       (idx4 (m_c model) (m_y model) (m_x model) (m_t model))
   ++ map (fun '(c, (y, (x, t))) => m_es_con c y x t)
       (idx4 (m_c model) (m_y model) (m_x model) (m_t model))
   ++ map (fun '(y, x) => m_s_cap y x) (idx2 (m_y_pc model) (m_x model))
   ++ map (fun '(y, x) => m_r_cap y x) (idx2 (m_y_def_r model) (m_x model))
   ++ map (fun '(y, x) => m_e_cap y x) (idx2 (m_y model) (m_x model))
   ++ map (fun '(y, (x, k)) => m_cost y x k)
       (idx3 (m_y model) (m_x model) (m_k model))
   ++ map (fun '(y, (x, k)) => m_cost_con y x k)
       (idx3 (m_y model) (m_x model) (m_k model))
   ++ map (fun '(y, (x, k)) => m_cost_op y x k)
       (idx3 (m_y model) (m_x model) (m_k model)))%list.

(** A feasible solution gives every declared variable a value within
    its bounds and satisfies every generated constraint. *)
Definition feasible (model : Model) (sol : assignment) : bool :=
  match generate_model model with
  | Ok constraints =>
      forallb (sat sol) constraints
      && forallb (in_domain sol) (declared_vars model)
  | Raise _ => false
  end.

(** ** Notions used to state the properties *)

(** Sum of a list of rationals, from the left like [sum]. *)
Definition Qsum (l : list Q) : Q := fold_left Qplus l 0.

(** The carrier flows of a technology at a node and timestep. *)
Definition es_prod_vars (model : Model) (y : tech) (x : loc) (t : timestep)
  : list var :=
  map (fun c => m_es_prod c y x t) (m_c model).

Definition es_con_vars (model : Model) (y : tech) (x : loc) (t : timestep)
  : list var :=
  map (fun c => m_es_con c y x t) (m_c model).

(** The storage balance with carry-over factor [keep] on the level of
    timestep [t_from] and efficiency [e]:
    [s(t) = keep * s(t_from) + rs(t) - sum(es_prod) / e - sum(es_con) * e]. *)
Definition storage_balance (model : Model) (sol : assignment) (y : tech)
  (x : loc) (t t_from : timestep) (keep e : Q) : Prop :=
  sol (m_s y x t) ==
    keep * sol (m_s y x t_from) + sol (m_rs y x t)
    - Qsum (map sol (es_prod_vars model y x t)) / e
    - Qsum (map sol (es_con_vars model y x t)) * e.

(** ** Small concrete models

    Inputs on which the rules are run in the examples below. *)

Fixpoint assoc (key : string) (cfg : list (string * value)) : option value :=
  match cfg with
  | [] => None
  | (k, v) :: rest => if String.eqb k key then Some v else assoc key rest
  end.

(** An option resolver over a flat table: the entry of the location
    ([x/key]) first, then the entry of the key, then the entry of the
    default key, and 0 when the table has none of them. *)
Definition resolve (cfg : list (string * value)) (key : string)
  (x : option loc) (default : option string) : value :=
  let at_tech :=
    match assoc key cfg with
    | Some v => Some v
    | None => match default with
              | Some d => assoc d cfg
              | None => None
              end
    end in
  let at_loc :=
    match x with
    | Some l => assoc (l ++ "/" ++ key) cfg
    | None => None
    end in
  match at_loc, at_tech with
  | Some v, _ => v
  | None, Some v => v
  | None, None => VNum (Fin 0)
  end.

(** Remote end of a link named [base:location]. *)
Fixpoint split_colon (s : string) : string * string :=
  match s with
  | EmptyString => ("", "")
  | String a rest =>
      if Ascii.eqb a ":"%char then ("", rest)
      else let '(b, r) := split_colon rest in (String a b, r)
  end.

Definition link_remotes (y : tech) (x : loc) : tech * loc :=
  let '(y_base, x_remote) := split_colon y in
  (y_base ++ ":" ++ x, x_remote).

Definition top_level (x : loc) : location_row :=
  {| index := x; _level := Fin 1; _within := VNum NaN;
     allowed := fun _ => Fin 1 |}.

Definition child_of (parent x : loc) : location_row :=
  {| index := x; _level := Fin 0; _within := VStr parent;
     allowed := fun _ => Fin 1 |}.

(** A model in planning mode with unit efficiencies. *)
Definition plan_model (ys y_pc y_def_r y_trans : list tech) (cs : list carrier)
  (rows : list location_row) (ts : list timestep) (time_res : timestep -> num)
  (r : tech -> loc -> timestep -> num) (cfg : list (string * value)) : Model :=
  {| m_y := ys; m_x := map index rows; m_t := ts; m_c := cs;
     m_k := ["monetary"];
     m_y_pc := y_pc; m_y_def_r := y_def_r; m_y_def_e_eff := [];
     m_y_trans := y_trans; m_y_conv := [];
     m_r := r;
     m_e_eff := fun _ _ _ => Fin 1;
     m_time_res := time_res;
     d_e_eff := fun _ _ => Fin 1;
     d_locations := rows;
     d_transmission_y := y_trans;
     d_s_init := None;
     mode := "plan";
     get_option := resolve cfg;
     get_eff_ref := fun _ _ _ => Fin 1;
     get_remotes := link_remotes |}.

Definition battery_cfg : list (string * value) :=
  [ ("battery.carrier", VStr "power");
    ("battery.constraints.s_cap_max", VNum (Fin 100));
    ("battery.constraints.s_loss", VNum (Fin (1 # 2)));
    ("battery.constraints.s_init", VNum (Fin 4));
    ("battery.constraints.e_cap_max", VNum (Fin 10));
    ("battery.constraints.e_cap_max_scale", VNum (Fin 1));
    ("battery.constraints.e_can_be_negative", VBool true);
    ("battery.depreciation.plant_life", VNum (Fin 25));
    ("battery.costs.default.s_cap", VNum (Fin 3));
    ("battery.costs.default.e_cap", VNum (Fin 7)) ].

(** A battery over two timesteps, the first of one hour and the second
    of two. *)
Definition two_step_battery : Model :=
  plan_model ["battery"] ["battery"] [] [] ["power"] [top_level "site"]
    [0%Z; 1%Z] (fun t => if (t =? 0)%Z then Fin 1 else Fin 2)
    (fun _ _ _ => Fin 0) battery_cfg.

(** The same battery over a single timestep of one hour. *)
Definition one_step_battery : Model :=
  plan_model ["battery"] ["battery"] [] [] ["power"] [top_level "site"]
    [0%Z] (fun _ => Fin 1) (fun _ _ _ => Fin 0) battery_cfg.

(** Two ends of a transmission link between the locations a and b. *)
Definition grid_cfg : list (string * value) :=
  [ ("hvdc:a.carrier", VStr "power");
    ("hvdc:b.carrier", VStr "power");
    ("hvdc:a.constraints.e_cap_max", VNum (Fin 10));
    ("hvdc:b.constraints.e_cap_max", VNum (Fin 10));
    ("hvdc:a.constraints.e_cap_max_scale", VNum (Fin 1));
    ("hvdc:b.constraints.e_cap_max_scale", VNum (Fin 1));
    ("hvdc:a.depreciation.plant_life", VNum (Fin 25));
    ("hvdc:b.depreciation.plant_life", VNum (Fin 25)) ].

Definition grid_model : Model :=
  plan_model ["hvdc:a"; "hvdc:b"] [] [] ["hvdc:a"; "hvdc:b"] ["power"]
    [top_level "a"; top_level "b"] [0%Z] (fun _ => Fin 1)
    (fun _ _ _ => Fin 0) grid_cfg.

Definition all_zero : assignment := fun _ => 0.

Definition link_at_three : assignment :=
  fun v => match v with
           | m_e_cap _ _ => 3
           | _ => 0
           end.

(** The battery at a site that also knows the carrier heat. *)
Definition two_carrier_battery : Model :=
  plan_model ["battery"] ["battery"] [] [] ["power"; "heat"] [top_level "site"]
    [0%Z] (fun _ => Fin 1) (fun _ _ _ => Fin 0) battery_cfg.

(** Initial charge kept, nothing flows. *)
Definition charged_idle : assignment :=
  fun v => match v with
           | m_s _ _ _ => 4
           | m_s_cap _ _ => 4
           | m_cost _ _ _ => 12 # 219000
           | m_cost_con _ _ _ => 12 # 219000
           | _ => 0
           end.

(** Half of the first level is left at the second timestep. *)
Definition half_kept : assignment :=
  fun v => match v with
           | m_s _ _ t => if (t =? 0)%Z then 4 else 2
           | _ => 0
           end.

(** The same model with another energy efficiency. *)
Definition with_efficiency (model : Model) (e : num) : Model :=
  {| m_y := m_y model; m_x := m_x model; m_t := m_t model; m_c := m_c model;
     m_k := m_k model;
     m_y_pc := m_y_pc model; m_y_def_r := m_y_def_r model;
     m_y_def_e_eff := m_y_def_e_eff model;
     m_y_trans := m_y_trans model; m_y_conv := m_y_conv model;
     m_r := m_r model;
     m_e_eff := fun _ _ _ => e;
     m_time_res := m_time_res model;
     d_e_eff := fun _ _ => e;
     d_locations := d_locations model;
     d_transmission_y := d_transmission_y model;
     d_s_init := d_s_init model;
     mode := mode model;
     get_option := get_option model;
     get_eff_ref := get_eff_ref model;
     get_remotes := get_remotes model |}.

(** A technology whose [s_cap_max] is left at 0 and whose storage
    capacity follows from its storage time: 2 hours at 10 units. *)
Definition tank_cfg : list (string * value) :=
  [ ("tank.carrier", VStr "power");
    ("tank.constraints.use_s_time", VBool true);
    ("tank.constraints.s_time_max", VNum (Fin 2));
    ("tank.constraints.e_cap_max", VNum (Fin 10));
    ("tank.constraints.e_cap_max_scale", VNum (Fin 1));
    ("tank.depreciation.plant_life", VNum (Fin 25)) ].

Definition tank_model : Model :=
  plan_model ["tank"] ["tank"] [] [] ["power"] [top_level "site"]
    [0%Z] (fun _ => Fin 1) (fun _ _ _ => Fin 0) tank_cfg.

Definition tank_filled : assignment :=
  fun v => match v with
           | m_s _ _ _ => 5
           | m_s_cap _ _ => 5
           | _ => 0
           end.

(** A collector with no resource in the first timestep and 5 units in
    the second, next to a demand whose resource is forced. *)
Definition pv_cfg : list (string * value) :=
  [ ("pv.carrier", VStr "power");
    ("pv.constraints.r_scale", VNum (Fin 2));
    ("pv.constraints.r_eff", VNum (Fin (1 # 2)));
    ("pv.constraints.r_cap_max", VNum PInf);
    ("pv.constraints.r_area_max", VNum (Fin 50));
    ("pv.constraints.e_cap_max", VNum (Fin 10));
    ("pv.constraints.e_cap_max_scale", VNum (Fin 1));
    ("pv.depreciation.plant_life", VNum (Fin 25));
    ("demand.carrier", VStr "power");
    ("demand.constraints.force_r", VBool true);
    ("demand.constraints.r_scale", VNum (Fin 1));
    ("demand.constraints.r_eff", VNum (Fin 1));
    ("demand.constraints.r_cap_max", VNum PInf);
    ("demand.constraints.r_area_max", VBool false);
    ("demand.constraints.e_cap_max", VNum PInf);
    ("demand.constraints.e_can_be_negative", VBool true);
    ("demand.depreciation.plant_life", VNum (Fin 25)) ].

Definition pv_model : Model :=
  plan_model ["pv"; "demand"] ["pv"; "demand"] ["pv"; "demand"] [] ["power"]
    [top_level "site"] [0%Z; 1%Z] (fun _ => Fin 1)
    (fun y _ t =>
       if String.eqb y "pv" then (if (t =? 0)%Z then Fin 0 else Fin 5)
       else Fin (-3))
    pv_cfg.

(** One unit of resource flow on one unit of collector area. *)
Definition free_night : assignment :=
  fun v => match v with
           | m_rs _ _ _ => 1
           | m_r_area _ _ => 1
           | _ => 0
           end.

(** A plant without storage. *)
Definition ccgt_cfg : list (string * value) :=
  [ ("ccgt.carrier", VStr "power");
    ("ccgt.constraints.e_cap_max", VNum (Fin 10));
    ("ccgt.constraints.e_cap_max_scale", VNum (Fin 1));
    ("ccgt.depreciation.plant_life", VNum (Fin 25)) ].

Definition ccgt_model : Model :=
  plan_model ["ccgt"] ["ccgt"] [] [] ["power"] [top_level "site"]
    [0%Z] (fun _ => Fin 1) (fun _ _ _ => Fin 0) ccgt_cfg.

(** A store with unbounded storage capacity and collector area, at a
    site that permits it and at one that does not. *)
Definition depot_cfg : list (string * value) :=
  [ ("store.carrier", VStr "power");
    ("store.constraints.s_cap_max", VNum PInf);
    ("store.constraints.r_cap_max", VNum (Fin 30));
    ("store.constraints.r_cap_max_force", VBool true);
    ("store.constraints.r_area_max", VNum PInf);
    ("store.constraints.e_cap_max", VNum (Fin 10));
    ("store.constraints.e_cap_max_scale", VNum (Fin 2));
    ("store.constraints.r_scale", VNum (Fin 1));
    ("store.constraints.r_eff", VNum (Fin 1));
    ("store.depreciation.plant_life", VNum (Fin 25)) ].

Definition not_permitted (x : loc) : location_row :=
  {| index := x; _level := Fin 1; _within := VNum NaN;
     allowed := fun _ => Fin 0 |}.

Definition depot_model : Model :=
  plan_model ["store"] ["store"] ["store"] [] ["power"]
    [top_level "site"; not_permitted "offsite"]
    [0%Z] (fun _ => Fin 1) (fun _ _ _ => Fin 0) depot_cfg.

(** The same model in another run mode. *)
Definition with_mode (model : Model) (run_mode : string) : Model :=
  {| m_y := m_y model; m_x := m_x model; m_t := m_t model; m_c := m_c model;
     m_k := m_k model;
     m_y_pc := m_y_pc model; m_y_def_r := m_y_def_r model;
     m_y_def_e_eff := m_y_def_e_eff model;
     m_y_trans := m_y_trans model; m_y_conv := m_y_conv model;
     m_r := m_r model;
     m_e_eff := m_e_eff model;
     m_time_res := m_time_res model;
     d_e_eff := d_e_eff model;
     d_locations := d_locations model;
     d_transmission_y := d_transmission_y model;
     d_s_init := d_s_init model;
     mode := run_mode;
     get_option := get_option model;
     get_eff_ref := get_eff_ref model;
     get_remotes := get_remotes model |}.

(** A battery financed at 10 percent over a life of 2 years. *)
Definition financed_cfg : list (string * value) :=
  [ ("battery.carrier", VStr "power");
    ("battery.constraints.s_cap_max", VNum (Fin 100));
    ("battery.constraints.e_cap_max", VNum (Fin 10));
    ("battery.constraints.e_cap_max_scale", VNum (Fin 1));
    ("battery.depreciation.plant_life", VNum (Fin 2));
    ("battery.depreciation.interest.default", VNum (Fin (1 # 10)));
    ("battery.costs.default.s_cap", VNum (Fin 3));
    ("battery.costs.monetary.e_cap", VNum (Fin 7)) ].

Definition financed_battery : Model :=
  plan_model ["battery"] ["battery"] [] [] ["power"] [top_level "site"]
    [0%Z; 1%Z] (fun t => if (t =? 0)%Z then Fin 1 else Fin 2)
    (fun _ _ _ => Fin 0) financed_cfg.

(** A region with one town inside it, and the carriers power and heat. *)
Definition region_model : Model :=
  plan_model ["battery"] ["battery"] [] [] ["power"; "heat"]
    [top_level "region"; child_of "region" "town"]
    [0%Z] (fun _ => Fin 1) (fun _ _ _ => Fin 0) battery_cfg.

(** The same model with conversion technologies. *)
Definition with_conversion (model : Model) (ys : list tech) : Model :=
  {| m_y := m_y model; m_x := m_x model; m_t := m_t model; m_c := m_c model;
     m_k := m_k model;
     m_y_pc := m_y_pc model; m_y_def_r := m_y_def_r model;
     m_y_def_e_eff := m_y_def_e_eff model;
     m_y_trans := m_y_trans model; m_y_conv := ys;
     m_r := m_r model;
     m_e_eff := m_e_eff model;
     m_time_res := m_time_res model;
     d_e_eff := d_e_eff model;
     d_locations := d_locations model;
     d_transmission_y := d_transmission_y model;
     d_s_init := d_s_init model;
     mode := mode model;
     get_option := get_option model;
     get_eff_ref := get_eff_ref model;
     get_remotes := get_remotes model |}.

(** A boiler that turns power into heat. *)
Definition boiler_cfg : list (string * value) :=
  [ ("boiler.carrier", VStr "heat");
    ("boiler.source_carrier", VStr "power");
    ("boiler.constraints.e_cap_max", VNum (Fin 10));
    ("boiler.constraints.e_cap_max_scale", VNum (Fin 1));
    ("boiler.constraints.e_can_be_negative", VBool true);
    ("boiler.weight", VNum (Fin 1));
    ("boiler.depreciation.plant_life", VNum (Fin 25)) ].

Definition boiler_model : Model :=
  with_conversion
    (plan_model ["boiler"] [] [] [] ["power"; "heat"] [top_level "site"]
       [0%Z] (fun _ => Fin 1) (fun _ _ _ => Fin 0) boiler_cfg)
    ["boiler"].

(** The collector serves the demand of 3 units in both timesteps. *)
Definition pv_dispatch : assignment :=
  fun v => match v with
           | m_rs y _ _ => if String.eqb y "pv" then 3 else -3
           | m_r_area _ _ => 1
           | m_r_cap _ _ => 3
           | m_e_cap _ _ => 3
           | m_es_prod _ y _ _ => if String.eqb y "pv" then 3 else 0
           | m_es_con _ y _ _ => if String.eqb y "demand" then -3 else 0
           | _ => 0
           end.

(** The collector model with a resource efficiency of zero. *)
Definition stalled_pv_model : Model :=
  plan_model ["pv"; "demand"] ["pv"; "demand"] ["pv"; "demand"] [] ["power"]
    [top_level "site"] [0%Z; 1%Z] (fun _ => Fin 1)
    (fun _ _ _ => Fin 0)
    (("pv.constraints.r_eff", VNum (Fin 0)) :: pv_cfg).

(** A plant that must run at half of its capacity or more. *)
Definition baseload_model : Model :=
  plan_model ["ccgt"] ["ccgt"] [] [] ["power"; "heat"] [top_level "site"]
    [0%Z] (fun _ => Fin 1) (fun _ _ _ => Fin 0)
    (("ccgt.constraints.e_cap_min_use", VNum (Fin (1 # 2))) :: ccgt_cfg).

(** The same model with another reference efficiency. *)
Definition with_eff_ref (model : Model) (r : num) : Model :=
  {| m_y := m_y model; m_x := m_x model; m_t := m_t model; m_c := m_c model;
     m_k := m_k model;
     m_y_pc := m_y_pc model; m_y_def_r := m_y_def_r model;
     m_y_def_e_eff := m_y_def_e_eff model;
     m_y_trans := m_y_trans model; m_y_conv := m_y_conv model;
     m_r := m_r model;
     m_e_eff := m_e_eff model;
     m_time_res := m_time_res model;
     d_e_eff := d_e_eff model;
     d_locations := d_locations model;
     d_transmission_y := d_transmission_y model;
     d_s_init := d_s_init model;
     mode := mode model;
     get_option := get_option model;
     get_eff_ref := fun _ _ _ => r;
     get_remotes := get_remotes model |}.

(** The collector model with 2 units of area per unit of capacity. *)
Definition tied_pv_model : Model :=
  plan_model ["pv"; "demand"] ["pv"; "demand"] ["pv"; "demand"] [] ["power"]
    [top_level "site"] [0%Z; 1%Z] (fun _ => Fin 1)
    (fun y _ t =>
       if String.eqb y "pv" then (if (t =? 0)%Z then Fin 0 else Fin 5)
       else Fin (-3))
    (("pv.constraints.r_area_per_e_cap", VNum (Fin 2)) :: pv_cfg).

Definition tied_dispatch : assignment :=
  fun v => match v with
           | m_rs y _ _ => if String.eqb y "pv" then 3 else -3
           | m_r_area y _ => if String.eqb y "pv" then 6 else 1
           | m_r_cap _ _ => 3
           | m_e_cap _ _ => 3
           | m_es_prod _ y _ _ => if String.eqb y "pv" then 3 else 0
           | m_es_con _ y _ _ => if String.eqb y "demand" then -3 else 0
           | _ => 0
           end.

(** The financed battery with a plant life of zero years. *)
Definition lifeless_battery : Model :=
  plan_model ["battery"] ["battery"] [] [] ["power"] [top_level "site"]
    [0%Z] (fun _ => Fin 1) (fun _ _ _ => Fin 0)
    (("battery.depreciation.plant_life", VNum (Fin 0)) :: financed_cfg).

(** The battery left alone over both timesteps: 4 units at first, half
    of them after the first hour. *)
Definition half_decay : assignment :=
  fun v => match v with
           | m_s _ _ t => if (t =? 0)%Z then 4 else 2
           | m_s_cap _ _ => 4
           | m_cost _ _ _ => 36 # 219000
           | m_cost_con _ _ _ => 36 # 219000
           | _ => 0
           end.

(** The same model with efficiency series for some technologies. *)
Definition with_def_e_eff (model : Model) (ys : list tech) : Model :=
  {| m_y := m_y model; m_x := m_x model; m_t := m_t model; m_c := m_c model;
     m_k := m_k model;
     m_y_pc := m_y_pc model; m_y_def_r := m_y_def_r model;
     m_y_def_e_eff := ys;
     m_y_trans := m_y_trans model; m_y_conv := m_y_conv model;
     m_r := m_r model;
     m_e_eff := m_e_eff model;
     m_time_res := m_time_res model;
     d_e_eff := d_e_eff model;
     d_locations := d_locations model;
     d_transmission_y := d_transmission_y model;
     d_s_init := d_s_init model;
     mode := mode model;
     get_option := get_option model;
     get_eff_ref := get_eff_ref model;
     get_remotes := get_remotes model |}.

(** The initial charge kept while one unit is produced. *)
Definition one_unit_produced : assignment :=
  fun v => match v with
           | m_s _ _ _ => 4
           | m_s_cap _ _ => 4
           | m_es_prod _ _ _ _ => 1
           | _ => 0
           end.

(** * Properties *)

(** ** Running rules over index sets *)

Lemma bind_Ok {A B : Type} (r : result A) (k : A -> result B) (b : B) :
  bind r k = Ok b -> exists a, r = Ok a /\ k a = Ok b.
Proof.
  destruct r as [a | e]; simpl; intros H.
  - exists a. split; [reflexivity | exact H].
  - discriminate H.
Qed.

Lemma mem_In (a : string) (l : list string) : mem a l = true <-> In a l.
Proof.
  unfold mem. rewrite existsb_exists. split.
  - intros [b [Hb Heq]]. apply String.eqb_eq in Heq. subst b. exact Hb.
  - intros H. exists a. split; [exact H | apply String.eqb_refl].
Qed.

Lemma Constraint_In {I : Type} (rule : I -> result rule_out) (idx : list I) :
  forall cs i c,
    Constraint idx rule = Ok cs ->
    In i idx ->
    rule i = Ok (Constr c) ->
    In c cs.
Proof.
  induction idx as [| j rest IH]; intros cs i c Hbuild Hin Hrule.
  - destruct Hin.
  - simpl in Hbuild. apply bind_Ok in Hbuild. destruct Hbuild as [r [Hj Hrest]].
    destruct Hin as [Heq | Hin].
    + subst j. rewrite Hrule in Hj. injection Hj as <-.
      apply bind_Ok in Hrest. destruct Hrest as [cs' [_ Hcs]].
      injection Hcs as <-. left. reflexivity.
    + destruct r as [| c' | b |]; try discriminate Hrest.
      * eapply IH; eassumption.
      * apply bind_Ok in Hrest. destruct Hrest as [cs' [Hcs' Hcs]].
        injection Hcs as <-. right. eapply IH; eassumption.
Qed.

Lemma in_idx2 {A B : Type} (a : list A) (b : list B) (i : A) (j : B) :
  In i a -> In j b -> In (i, j) (idx2 a b).
Proof. intros. unfold idx2. apply in_prod; assumption. Qed.

Lemma in_idx3 {A B C : Type} (a : list A) (b : list B) (c : list C) i j k :
  In i a -> In j b -> In k c -> In (i, (j, k)) (idx3 a b c).
Proof. intros. unfold idx3. repeat apply in_prod; assumption. Qed.

Lemma in_idx4 {A B C D : Type} (a : list A) (b : list B) (c : list C)
  (d : list D) i j k l :
  In i a -> In j b -> In k c -> In l d -> In (i, (j, (k, l))) (idx4 a b c d).
Proof. intros. unfold idx4. repeat apply in_prod; assumption. Qed.

(** What feasibility gives: the problem was generated, its constraints
    hold and the declared variables are within their bounds. *)
Lemma feasible_inv (model : Model) (sol : assignment) :
  feasible model sol = true ->
  exists cs,
    generate_model model = Ok cs
    /\ (forall c, In c cs -> sat sol c = true)
    /\ (forall v, In v (declared_vars model) -> in_domain sol v = true).
Proof.
  unfold feasible. destruct (generate_model model) as [cs | e]; [| discriminate].
  intros H. apply andb_true_iff in H. destruct H as [Hc Hv].
  rewrite forallb_forall in Hc, Hv. exists cs. auto.
Qed.

(** Splits [generate_model model = Ok cs] into its six components. *)
Ltac split_generated H :=
  unfold generate_model in H;
  repeat (let a := fresh "part" in
          let Ha := fresh "Hpart" in
          apply bind_Ok in H; destruct H as [a [Ha H]]);
  injection H as <-.

(** Splits a generator [g model = Ok cs] into its constraint blocks. *)
Ltac split_blocks H :=
  repeat (let a := fresh "block" in
          let Ha := fresh "Hblock" in
          apply bind_Ok in H; destruct H as [a [Ha H]]);
  injection H as <-.

Ltac in_app_solve :=
  repeat rewrite in_app_iff; auto 20.

Lemma feasible_c_transmission_capacity model sol y x c :
  feasible model sol = true ->
  In y (m_y_trans model) -> In x (m_x model) ->
  c_transmission_capacity_rule model y x = Ok (Constr c) ->
  sat sol c = true.
Proof.
  intros Hf Hy Hx Hrule. apply feasible_inv in Hf.
  destruct Hf as [cs [Hgen [Hsat _]]]. apply Hsat.
  split_generated Hgen. unfold transmission_constraints in Hpart2.
  assert (In c part2).
  { eapply (Constraint_In _ _ _ (y, x)); [exact Hpart2 | | exact Hrule].
    apply in_idx2; assumption. }
  in_app_solve.
Qed.

Lemma Constraint_inv {I : Type} (rule : I -> result rule_out) (idx : list I) :
  forall cs i,
    Constraint idx rule = Ok cs ->
    In i idx ->
    rule i = Ok NoConstraint
    \/ exists c, rule i = Ok (Constr c) /\ In c cs.
Proof.
  induction idx as [| j rest IH]; intros cs i Hbuild Hin.
  - destruct Hin.
  - simpl in Hbuild. apply bind_Ok in Hbuild. destruct Hbuild as [r [Hj Hrest]].
    destruct r as [| c' | b |]; try discriminate Hrest.
    + destruct Hin as [<- | Hin]; [left; exact Hj | eapply IH; eassumption].
    + apply bind_Ok in Hrest. destruct Hrest as [cs' [Hcs' Hcs]].
      injection Hcs as <-.
      destruct Hin as [<- | Hin].
      * right. exists c'. split; [exact Hj | left; reflexivity].
      * destruct (IH _ _ Hcs' Hin) as [Hn | [c [Hc Hc']]].
        -- left. exact Hn.
        -- right. exists c. split; [exact Hc | right; exact Hc'].
Qed.

(** ** Values of the expressions a rule builds *)

Lemma eval_py_add sol a b :
  eval sol (to_expr (py_add a b)) = num_add (eval sol (to_expr a)) (eval sol (to_expr b)).
Proof. destruct a, b; reflexivity. Qed.

Lemma eval_py_sub sol a b :
  eval sol (to_expr (py_sub a b)) = num_sub (eval sol (to_expr a)) (eval sol (to_expr b)).
Proof. destruct a, b; reflexivity. Qed.

Lemma eval_py_mul sol a b :
  eval sol (to_expr (py_mul a b)) = num_mul (eval sol (to_expr a)) (eval sol (to_expr b)).
Proof. destruct a, b; reflexivity. Qed.

Lemma eval_py_div sol a d r :
  py_div a (PN d) = Ok r ->
  eval sol (to_expr r) = num_quot (eval sol (to_expr a)) d.
Proof.
  unfold py_div. destruct (num_is_zero d); [discriminate |].
  destruct a; intros H; injection H as <-; reflexivity.
Qed.

Lemma py_div_zero a d :
  num_is_zero d = true -> py_div a (PN d) = Raise ZeroDivisionError.
Proof. intros H. unfold py_div. rewrite H. reflexivity. Qed.

Lemma py_truediv_nonzero a d numpy :
  num_is_zero d = false -> py_truediv a d numpy = py_div a (PN d).
Proof.
  intros H. unfold py_truediv, np_div. rewrite H. destruct numpy; reflexivity.
Qed.

Lemma py_truediv_plain_zero a d :
  num_is_zero d = true -> py_truediv a d false = Raise ZeroDivisionError.
Proof. intros H. unfold py_truediv. apply py_div_zero. exact H. Qed.

Lemma py_truediv_numpy_zero sol a d :
  num_is_zero d = true ->
  exists r,
    py_truediv a d true = Ok r
    /\ eval sol (to_expr r) = num_mul PInf (eval sol (to_expr a)).
Proof.
  intros H. unfold py_truediv, np_div. rewrite H.
  eexists. split; [reflexivity |]. destruct a; reflexivity.
Qed.

Lemma py_div_nonzero a d :
  num_is_zero d = false -> exists r, py_div a (PN d) = Ok r.
Proof.
  intros H. unfold py_div. rewrite H. destruct a; eexists; reflexivity.
Qed.

Lemma eval_fold_vars sol (l : list var) :
  forall acc a,
    eval sol (to_expr acc) = Fin a ->
    eval sol (to_expr (fold_left py_add (map (fun v => PE (V v)) l) acc))
    = Fin (fold_left Qplus (map sol l) a).
Proof.
  induction l as [| v l IH]; intros acc a Hacc; simpl.
  - exact Hacc.
  - apply IH. rewrite eval_py_add, Hacc. reflexivity.
Qed.

(** A [sum(...)] over decision variables has the sum of their values. *)
Lemma eval_py_sum_vars sol (l : list var) :
  eval sol (to_expr (py_sum (map (fun v => PE (V v)) l))) = Fin (Qsum (map sol l)).
Proof. unfold py_sum, Qsum. apply eval_fold_vars. reflexivity. Qed.

Lemma fold_py_add_PE (l : list pyobj) :
  forall e, exists e', fold_left py_add l (PE e) = PE e'.
Proof.
  induction l as [| a l IH]; intros e; simpl.
  - exists e. reflexivity.
  - destruct a; apply IH.
Qed.

(** A [sum(...)] over at least one decision variable is an expression. *)
Lemma py_sum_vars_PE (l : list var) :
  l <> [] -> exists e, py_sum (map (fun v => PE (V v)) l) = PE e.
Proof.
  destruct l as [| v l]; [congruence |]. intros _.
  unfold py_sum. simpl. apply fold_py_add_PE.
Qed.

Lemma fold_Qplus_shift (l : list Q) :
  forall a, fold_left Qplus l a == a + Qsum l.
Proof.
  unfold Qsum. induction l as [| q l IH]; intros a; simpl.
  - lra.
  - rewrite IH. rewrite (IH (0 + q)). lra.
Qed.

Lemma Qsum_zero (l : list Q) :
  (forall q, In q l -> q == 0) -> Qsum l == 0.
Proof.
  induction l as [| q l IH]; intros H.
  - reflexivity.
  - unfold Qsum. simpl. rewrite fold_Qplus_shift.
    rewrite IH by (intros; apply H; right; assumption).
    rewrite (H q) by (left; reflexivity). lra.
Qed.

Lemma to_num_py_eq_num v n m :
  to_num v = Ok n -> py_eq_num v m = num_eqb n m.
Proof. destruct v; simpl; intros H; try discriminate; injection H as <-; reflexivity. Qed.

Lemma Qeq_bool_false p q : Qeq_bool p q = false <-> ~ p == q.
Proof.
  split.
  - intros H Heq. apply Qeq_bool_iff in Heq. congruence.
  - intros H. destruct (Qeq_bool p q) eqn:E; [| reflexivity].
    apply Qeq_bool_iff in E. contradiction.
Qed.

Lemma whole_inject_Z (z : Z) : whole (inject_Z z) = Some z.
Proof.
  unfold whole, inject_Z. simpl.
  rewrite Z.rem_1_r, Z.div_1_r. reflexivity.
Qed.

(** A power with a whole, non-negative exponent. *)
Lemma num_pow_whole (p : Q) (z : Z) :
  (0 <= z)%Z ->
  num_pow (Fin p) (Fin (inject_Z z)) = Ok (Fin (p ^ z)).
Proof.
  intros Hz. unfold num_pow. rewrite whole_inject_Z.
  assert (Hneg : (z <? 0)%Z = false) by (apply Z.ltb_ge; exact Hz).
  rewrite Hneg, andb_false_r. reflexivity.
Qed.

Lemma prev_order_dict model t t_prev :
  prev model t = Ok t_prev ->
  exists pos, order_dict (m_t model) t = Ok pos /\ (1 <? pos)%nat = true.
Proof.
  unfold prev, order_dict.
  destruct (position (m_t model) t) as [[| n] |]; try discriminate.
  intros _. exists (S (S n)). split; reflexivity.
Qed.

Lemma map_vars {A : Type} (f : A -> var) (l : list A) :
  map (fun a => PE (V (f a))) l = map (fun v => PE (V v)) (map f l).
Proof. symmetry. apply map_map. Qed.

Lemma eval_consumed sol model y x t d :
  eval sol
    (to_expr (py_mul (py_sum (map (fun c => PE (V (m_es_con c y x t))) (m_c model)))
                     (PN d)))
  = num_mul (Fin (Qsum (map sol (es_con_vars model y x t)))) d.
Proof.
  rewrite eval_py_mul, (map_vars (fun c => m_es_con c y x t)), eval_py_sum_vars.
  reflexivity.
Qed.

Lemma eval_produced sol model y x t d r :
  py_div (py_sum (map (fun c => PE (V (m_es_prod c y x t))) (m_c model))) (PN d)
  = Ok r ->
  eval sol (to_expr r)
  = num_quot (Fin (Qsum (map sol (es_prod_vars model y x t)))) d.
Proof.
  intros Hr. rewrite (eval_py_div _ _ _ _ Hr).
  rewrite (map_vars (fun c => m_es_prod c y x t)), eval_py_sum_vars.
  reflexivity.
Qed.

(** With no carrier flow the balance leaves the carried amount, whatever
    the efficiency is. *)
Lemma idle_balance_value (s a p c : Q) (prod d : num) :
  p == 0 -> c == 0 ->
  prod = Fin 0 \/ prod = num_quot (Fin p) d ->
  num_eqb (Fin s) (num_sub (num_sub (Fin a) prod) (num_mul (Fin c) d)) = true ->
  s == a.
Proof.
  intros Hp Hc Hprod.
  assert (Hsign : (c ?= 0) = Eq) by (apply Qeq_alt; exact Hc).
  destruct d as [e | | |]; simpl.
  - destruct Hprod as [-> | ->]; simpl.
    + intros H. apply Qeq_bool_iff in H. rewrite H, Hc. ring.
    + destruct (Qeq_bool e 0) eqn:He; simpl; [intros H; discriminate H |].
      intros H. apply Qeq_bool_iff in H. rewrite H, Hc, Hp.
      apply Qeq_bool_false in He. field. exact He.
  - rewrite Hsign. destruct Hprod as [-> | ->]; simpl; intros H; discriminate H.
  - rewrite Hsign. destruct Hprod as [-> | ->]; simpl; intros H; discriminate H.
  - rewrite Hsign. destruct Hprod as [-> | ->]; simpl; intros H; discriminate H.
Qed.

(** An infinite coefficient on a production of zero leaves no value:
    such a balance holds nowhere. *)
Lemma idle_infinite_production (s a p : Q) (rest : num) :
  p == 0 ->
  num_eqb (Fin s) (num_sub (num_sub (Fin a) (num_mul PInf (Fin p))) rest) = true ->
  False.
Proof.
  intros Hp. assert (Hsign : (p ?= 0) = Eq) by (apply Qeq_alt; exact Hp).
  simpl. rewrite Hsign. destruct rest; simpl; intros H; discriminate H.
Qed.

Lemma flat_map_vars {A B : Type} (f : A -> B -> var) (outer : list A)
  (inner : list B) :
  flat_map (fun a => map (fun b => PE (V (f a b))) inner) outer
  = map (fun v => PE (V v)) (flat_map (fun a => map (f a) inner) outer).
Proof.
  induction outer as [| a outer IH]; simpl.
  - reflexivity.
  - rewrite map_app, IH, map_map. reflexivity.
Qed.

Lemma flat_map_nonempty {A B C : Type} (f : A -> B -> C) (outer : list A)
  (inner : list B) (a : A) :
  In a outer -> inner <> [] ->
  flat_map (fun a' => map (f a') inner) outer <> [].
Proof.
  intros Ha Hinner H. destruct inner as [| b inner]; [congruence |].
  assert (Hin : In (f a b) (flat_map (fun a' => map (f a') (b :: inner)) outer)).
  { apply in_flat_map. exists a. split; [exact Ha | left; reflexivity]. }
  rewrite H in Hin. destruct Hin.
Qed.

(** ** Constraints of a generated problem hold at its feasible points *)

Lemma feasible_c_s_balance_pc model sol y x t c :
  feasible model sol = true ->
  In y (m_y_pc model) -> In x (m_x model) -> In t (m_t model) ->
  c_s_balance_pc_rule model y x t = Ok (Constr c) ->
  sat sol c = true.
Proof.
  intros Hf Hy Hx Ht Hrule. apply feasible_inv in Hf.
  destruct Hf as [cs [Hgen [Hsat _]]]. apply Hsat.
  split_generated Hgen. unfold node_energy_balance in Hpart. split_blocks Hpart.
  assert (In c block2).
  { eapply (Constraint_In _ _ _ (y, (x, t))); [exact Hblock2 | | exact Hrule].
    apply in_idx3; assumption. }
  in_app_solve.
Qed.

Lemma feasible_c_s_max model sol y x t :
  feasible model sol = true ->
  In y (m_y_pc model) -> In x (m_x model) -> In t (m_t model) ->
  sol (m_s y x t) <= sol (m_s_cap y x).
Proof.
  intros Hf Hy Hx Ht. apply feasible_inv in Hf.
  destruct Hf as [cs [Hgen [Hsat _]]].
  apply Qle_bool_iff.
  apply (Hsat (CLe (V (m_s y x t)) (V (m_s_cap y x)))).
  split_generated Hgen. unfold node_constraints_operational in Hpart1.
  split_blocks Hpart1.
  assert (In (CLe (V (m_s y x t)) (V (m_s_cap y x))) block4).
  { eapply (Constraint_In _ _ _ (y, (x, t))); [exact Hblock4 | | reflexivity].
    apply in_idx3; assumption. }
  in_app_solve.
Qed.

Lemma feasible_s_nonneg model sol y x t :
  feasible model sol = true ->
  In y (m_y_pc model) -> In x (m_x model) -> In t (m_t model) ->
  0 <= sol (m_s y x t).
Proof.
  intros Hf Hy Hx Ht. apply feasible_inv in Hf.
  destruct Hf as [cs [_ [_ Hdom]]].
  apply Qle_bool_iff. apply (Hdom (m_s y x t)).
  unfold declared_vars. apply in_or_app. left.
  apply in_map_iff. exists (y, (x, t)). split; [reflexivity |].
  apply in_idx3; assumption.
Qed.

Lemma feasible_c_s_cap model sol y x :
  feasible model sol = true ->
  In y (m_y_pc model) -> In x (m_x model) ->
  c_s_cap_rule model y x = Ok NoConstraint
  \/ exists c, c_s_cap_rule model y x = Ok (Constr c) /\ sat sol c = true.
Proof.
  intros Hf Hy Hx. apply feasible_inv in Hf.
  destruct Hf as [cs [Hgen [Hsat _]]].
  split_generated Hgen. unfold node_constraints_build in Hpart0.
  split_blocks Hpart0.
  destruct (Constraint_inv _ _ _ (y, x) Hblock (in_idx2 _ _ _ _ Hy Hx))
    as [Hn | [c [Hc Hin]]].
  - left. exact Hn.
  - right. exists c. split; [exact Hc |]. apply Hsat. in_app_solve.
Qed.

Lemma feasible_c_es_prod_max model sol c y x t k :
  feasible model sol = true ->
  In c (m_c model) -> In y (m_y model) -> In x (m_x model) -> In t (m_t model) ->
  c_es_prod_max_rule model c y x t = Ok (Constr k) ->
  sat sol k = true.
Proof.
  intros Hf Hc Hy Hx Ht Hrule. apply feasible_inv in Hf.
  destruct Hf as [cs [Hgen [Hsat _]]]. apply Hsat.
  split_generated Hgen. unfold node_constraints_operational in Hpart1.
  split_blocks Hpart1.
  assert (In k block1).
  { eapply (Constraint_In _ _ _ (c, (y, (x, t)))); [exact Hblock1 | | exact Hrule].
    apply in_idx4; assumption. }
  in_app_solve.
Qed.

Lemma feasible_c_es_con_max model sol c y x t k :
  feasible model sol = true ->
  In c (m_c model) -> In y (m_y model) -> In x (m_x model) -> In t (m_t model) ->
  c_es_con_max_rule model c y x t = Ok (Constr k) ->
  sat sol k = true.
Proof.
  intros Hf Hc Hy Hx Ht Hrule. apply feasible_inv in Hf.
  destruct Hf as [cs [Hgen [Hsat _]]]. apply Hsat.
  split_generated Hgen. unfold node_constraints_operational in Hpart1.
  split_blocks Hpart1.
  assert (In k block3).
  { eapply (Constraint_In _ _ _ (c, (y, (x, t)))); [exact Hblock3 | | exact Hrule].
    apply in_idx4; assumption. }
  in_app_solve.
Qed.

(** ** Transmission *)

(** C7. For a transmission technology [y] at [x] whose remote
    counterpart is itself a transmission technology, the rule constrains
    [e_cap[y, x] == e_cap[y_remote, x_remote]], and the two capacities
    are equal in every feasible solution. *)
Theorem transmission_capacity_symmetric (model : Model) (sol : assignment)
  (y y_remote : tech) (x x_remote : loc) :
  In y (m_y_trans model) ->
  In x (m_x model) ->
  get_remotes model y x = (y_remote, x_remote) ->
  In y_remote (d_transmission_y model) ->
  c_transmission_capacity_rule model y x
  = Ok (Constr (CEq (V (m_e_cap y x)) (V (m_e_cap y_remote x_remote))))
  /\ (feasible model sol = true ->
      sol (m_e_cap y x) == sol (m_e_cap y_remote x_remote)).
Proof.
  intros Hy Hx Hrem Htrans.
  assert (Hrule : c_transmission_capacity_rule model y x
                  = Ok (Constr (CEq (V (m_e_cap y x))
                                    (V (m_e_cap y_remote x_remote))))).
  { unfold c_transmission_capacity_rule. rewrite Hrem.
    apply mem_In in Htrans. rewrite Htrans. reflexivity. }
  split; [exact Hrule |].
  intros Hf.
  pose proof (feasible_c_transmission_capacity _ _ _ _ _ Hf Hy Hx Hrule) as Hsat.
  simpl in Hsat. apply Qeq_bool_iff. exact Hsat.
Qed.

Lemma transmission_capacity_symmetric_witness :
  c_transmission_capacity_rule grid_model "hvdc:b" "a"
  = Ok (Constr (CEq (V (m_e_cap "hvdc:b" "a")) (V (m_e_cap "hvdc:a" "b"))))
  /\ link_at_three (m_e_cap "hvdc:b" "a") == link_at_three (m_e_cap "hvdc:a" "b").
Proof.
  destruct (transmission_capacity_symmetric grid_model link_at_three
              "hvdc:b" "hvdc:a" "a" "b") as [Hrule Hsol].
  - simpl. auto.
  - simpl. auto.
  - reflexivity.
  - simpl. auto.
  - split; [exact Hrule | apply Hsol; vm_compute; reflexivity].
Defined.

Example charged_idle_feasible : feasible two_carrier_battery charged_idle = true.
Proof. vm_compute. reflexivity. Qed.

(** ** Carrier flows at the grid interface *)

(** C10. Production of a carrier that is not the technology's declared
    carrier is constrained to 0, and consumption of a carrier is
    constrained to 0 unless [e_can_be_negative] is [True] and the
    carrier is the declared one; at every feasible solution these flows
    are therefore zero. *)
Theorem foreign_carrier_flows_zero (model : Model) (sol : assignment)
  (c : carrier) (y : tech) (x : loc) (t : timestep) :
  let declared := get_option model (y ++ ".carrier") None None in
  let negative :=
    get_option model (y ++ ".constraints.e_can_be_negative") None None in
  (py_eq_str c declared = false ->
   c_es_prod_max_rule model c y x t
   = Ok (Constr (CEq (V (m_es_prod c y x t)) (Const (Fin 0)))))
  /\ (is_True negative && py_eq_str c declared = false ->
      c_es_con_max_rule model c y x t
      = Ok (Constr (CEq (V (m_es_con c y x t)) (Const (Fin 0)))))
  /\ (In c (m_c model) -> In y (m_y model) -> In x (m_x model) ->
      In t (m_t model) -> feasible model sol = true ->
      (py_eq_str c declared = false -> sol (m_es_prod c y x t) == 0)
      /\ (is_True negative && py_eq_str c declared = false ->
          sol (m_es_con c y x t) == 0)).
Proof.
  intros declared negative.
  assert (Hprod : py_eq_str c declared = false ->
                  c_es_prod_max_rule model c y x t
                  = Ok (Constr (CEq (V (m_es_prod c y x t)) (Const (Fin 0))))).
  { intros H. unfold c_es_prod_max_rule. fold declared. rewrite H. reflexivity. }
  assert (Hcon : is_True negative && py_eq_str c declared = false ->
                 c_es_con_max_rule model c y x t
                 = Ok (Constr (CEq (V (m_es_con c y x t)) (Const (Fin 0))))).
  { intros H. unfold c_es_con_max_rule. fold declared negative. rewrite H.
    reflexivity. }
  split; [exact Hprod | split; [exact Hcon |]].
  intros Hc Hy Hx Ht Hf. split; intros H.
  - pose proof (feasible_c_es_prod_max _ _ _ _ _ _ _ Hf Hc Hy Hx Ht (Hprod H)) as Hs.
    simpl in Hs. apply Qeq_bool_iff. exact Hs.
  - pose proof (feasible_c_es_con_max _ _ _ _ _ _ _ Hf Hc Hy Hx Ht (Hcon H)) as Hs.
    simpl in Hs. apply Qeq_bool_iff. exact Hs.
Qed.

Lemma foreign_carrier_flows_zero_witness :
  c_es_prod_max_rule two_carrier_battery "heat" "battery" "site" 0%Z
  = Ok (Constr (CEq (V (m_es_prod "heat" "battery" "site" 0%Z)) (Const (Fin 0))))
  /\ c_es_con_max_rule two_carrier_battery "heat" "battery" "site" 0%Z
     = Ok (Constr (CEq (V (m_es_con "heat" "battery" "site" 0%Z)) (Const (Fin 0))))
  /\ charged_idle (m_es_prod "heat" "battery" "site" 0%Z) == 0
  /\ charged_idle (m_es_con "heat" "battery" "site" 0%Z) == 0.
Proof.
  destruct (foreign_carrier_flows_zero two_carrier_battery charged_idle
              "heat" "battery" "site" 0%Z) as [Hprod [Hcon Hsol]].
  destruct Hsol as [Hp Hc].
  - simpl. auto.
  - simpl. auto.
  - simpl. auto.
  - simpl. auto.
  - vm_compute. reflexivity.
  - split; [apply Hprod; reflexivity |].
    split; [apply Hcon; reflexivity |].
    split; [apply Hp; reflexivity | apply Hc; reflexivity].
Defined.

(** ** Storage balance *)

(** C1 (as amended).  For a technology with storage, at a timestep [t]
    that has a predecessor [t_prev], the rule generates
    [s(t) = (1 - s_loss)^duration(t_prev) * s(t_prev) + rs(t)
            - sum(es_prod) / e_eff - sum(es_con) * e_eff]:
    the exponent of the loss factor is the duration of the predecessor. *)
Theorem s_balance_pc_with_predecessor (model : Model) (y : tech) (x : loc)
  (t t_prev : timestep) (loss e : Q) (hours : Z) :
  py_eq_num (get_option model (y ++ ".constraints.s_cap_max") None None) (Fin 0)
  = false ->
  prev model t = Ok t_prev ->
  to_num (get_option model (y ++ ".constraints.s_loss") None None) = Ok (Fin loss) ->
  m_time_res model t_prev = Fin (inject_Z hours) ->
  (0 <= hours)%Z ->
  get_e_eff model y x t = Fin e ->
  ~ e == 0 ->
  exists c,
    c_s_balance_pc_rule model y x t = Ok (Constr c)
    /\ forall sol,
         sat sol c = true
         <-> storage_balance model sol y x t t_prev ((1 - loss) ^ hours) e.
Proof.
  intros Hcap Hprev Hloss Hres Hhours Heff He.
  assert (Hz : num_is_zero (Fin e) = false) by (apply Qeq_bool_false; exact He).
  destruct (py_div_nonzero
              (py_sum (map (fun c => PE (V (m_es_prod c y x t))) (m_c model)))
              (Fin e) Hz) as [r Hr].
  destruct (prev_order_dict _ _ _ Hprev) as [pos [Hpos Hgt]].
  unfold c_s_balance_pc_rule, s_minus_one.
  rewrite Heff, (py_truediv_nonzero _ _ _ Hz), Hr, Hcap, Hpos. simpl bind.
  rewrite Hgt.
  rewrite Hloss, Hprev. simpl bind. rewrite Hres.
  change (num_sub (Fin 1) (Fin loss)) with (Fin (1 - loss)).
  rewrite (num_pow_whole _ _ Hhours). simpl bind.
  eexists. split; [reflexivity |].
  intros sol. unfold sat, storage_balance, es_prod_vars, es_con_vars.
  cbn [eval]. rewrite eval_py_mul, (eval_py_div _ _ _ _ Hr).
  rewrite (map_vars (fun c => m_es_prod c y x t)).
  rewrite (map_vars (fun c => m_es_con c y x t)).
  rewrite !eval_py_sum_vars.
  simpl. simpl in Hz. rewrite Hz. simpl.
  apply Qeq_bool_iff.
Qed.

Lemma s_balance_pc_with_predecessor_witness :
  exists c,
    c_s_balance_pc_rule two_step_battery "battery" "site" 1%Z = Ok (Constr c)
    /\ forall sol,
         sat sol c = true
         <-> storage_balance two_step_battery sol "battery" "site" 1%Z 0%Z
               ((1 - (1 # 2)) ^ 1) 1.
Proof.
  apply (s_balance_pc_with_predecessor two_step_battery "battery" "site"
           1%Z 0%Z (1 # 2) 1 1%Z).
  - reflexivity.
  - reflexivity.
  - reflexivity.
  - reflexivity.
  - lia.
  - reflexivity.
  - intros H. discriminate H.
Defined.

(** C1, counterexample.  With a first timestep of one hour, a second of
    two hours and a loss of one half, the constraint generated for the
    second timestep holds where half of the first level is left; the
    balance with the duration of the second timestep as exponent would
    leave a quarter. *)
Lemma s_balance_pc_current_duration_counterexample :
  exists c,
    c_s_balance_pc_rule two_step_battery "battery" "site" 1%Z = Ok (Constr c)
    /\ m_time_res two_step_battery 1%Z = Fin (inject_Z 2)
    /\ sat half_kept c = true
    /\ ~ storage_balance two_step_battery half_kept "battery" "site" 1%Z 0%Z
           ((1 - (1 # 2)) ^ 2) 1.
Proof.
  eexists. split; [vm_compute; reflexivity |].
  split; [reflexivity |].
  split; [vm_compute; reflexivity |].
  unfold storage_balance. vm_compute. intros H. discriminate H.
Qed.

(** C2 (defect of the code).  The rule guards the division by the
    efficiency with [except ZeroDivisionError], but for a technology
    outside [m.y_def_e_eff] the efficiency is the DataFrame entry
    [d.e_eff[y][x][0]], and dividing by that zero raises nothing.  For
    the battery with an efficiency of zero the production term of the
    generated balance is [inf * sum(es_prod)] instead of 0: it is
    infinite for a production of one unit, and the generated balance
    fails even where nothing flows, where the balance with a production
    term of 0 holds. *)
Lemma zero_efficiency_dataframe_entry :
  e_eff_is_numpy (with_efficiency one_step_battery (Fin 0)) "battery" = true
  /\ get_e_eff (with_efficiency one_step_battery (Fin 0)) "battery" "site" 0%Z
     = Fin 0
  /\ c_s_balance_pc_rule (with_efficiency one_step_battery (Fin 0))
       "battery" "site" 0%Z
     = Ok (Constr
             (CEq (V (m_s "battery" "site" 0%Z))
                  (Sub (Sub (Add (Const (Fin 4)) (V (m_rs "battery" "site" 0%Z)))
                            (Mul (Const PInf)
                                 (Add (Const (Fin 0))
                                      (V (m_es_prod "power" "battery" "site" 0%Z)))))
                       (Mul (Add (Const (Fin 0))
                                 (V (m_es_con "power" "battery" "site" 0%Z)))
                            (Const (Fin 0))))))
  /\ eval one_unit_produced
          (Mul (Const PInf)
               (Add (Const (Fin 0)) (V (m_es_prod "power" "battery" "site" 0%Z))))
     = PInf
  /\ sat charged_idle
         (CEq (V (m_s "battery" "site" 0%Z))
              (Sub (Sub (Add (Const (Fin 4)) (V (m_rs "battery" "site" 0%Z)))
                        (Mul (Const PInf)
                             (Add (Const (Fin 0))
                                  (V (m_es_prod "power" "battery" "site" 0%Z)))))
                   (Mul (Add (Const (Fin 0))
                             (V (m_es_con "power" "battery" "site" 0%Z)))
                        (Const (Fin 0)))))
     = false
  /\ sat charged_idle
         (CEq (V (m_s "battery" "site" 0%Z))
              (Sub (Sub (Add (Const (Fin 4)) (V (m_rs "battery" "site" 0%Z)))
                        (Const (Fin 0)))
                   (Mul (Add (Const (Fin 0))
                             (V (m_es_con "power" "battery" "site" 0%Z)))
                        (Const (Fin 0)))))
     = true.
Proof.
  repeat apply conj; vm_compute; reflexivity.
Qed.

(** ** Resource availability *)

(** C3 (as amended).  For a technology with a resource and
    [available = r * r_scale * r_area * r_eff]: with [force_r] the rule
    generates [rs == available]; otherwise [rs <= available] where the
    raw resource is strictly positive and [rs >= available] where it is
    zero or negative. *)
Theorem c_rs_rule_direction (model : Model) (y : tech) (x : loc) (t : timestep)
  (scale eff : num) (signal : Q) :
  In y (m_y_def_r model) ->
  to_num (get_option model (y ++ ".constraints.r_scale") (Some x) None) = Ok scale ->
  to_num (get_option model (y ++ ".constraints.r_eff") None None) = Ok eff ->
  m_r model y x t = Fin signal ->
  let available :=
    Mul (Mul (Const (num_mul (Fin signal) scale)) (V (m_r_area y x))) (Const eff) in
  let forced := truthy (get_option model (y ++ ".constraints.force_r") None None) in
  (forced = true ->
   c_rs_rule model y x t = Ok (Constr (CEq (V (m_rs y x t)) available)))
  /\ (forced = false -> 0 < signal ->
      c_rs_rule model y x t = Ok (Constr (CLe (V (m_rs y x t)) available)))
  /\ (forced = false -> signal <= 0 ->
      c_rs_rule model y x t = Ok (Constr (CGe (V (m_rs y x t)) available))).
Proof.
  intros Hy Hscale Heff Hr available forced. subst available forced.
  apply mem_In in Hy.
  unfold c_rs_rule. rewrite Hy, Hscale, Heff, Hr. simpl.
  split; [| split].
  - intros H. rewrite H. reflexivity.
  - intros H Hpos. rewrite H.
    assert (Hle : Qle_bool signal 0 = false).
    { destruct (Qle_bool signal 0) eqn:E; [| reflexivity].
      apply Qle_bool_iff in E. lra. }
    rewrite Hle. reflexivity.
  - intros H Hneg. rewrite H.
    assert (Hle : Qle_bool signal 0 = true) by (apply Qle_bool_iff; exact Hneg).
    rewrite Hle. reflexivity.
Qed.

Lemma c_rs_rule_direction_witness :
  c_rs_rule pv_model "demand" "site" 0%Z
  = Ok (Constr (CEq (V (m_rs "demand" "site" 0%Z))
                    (Mul (Mul (Const (num_mul (Fin (-3)) (Fin 1)))
                              (V (m_r_area "demand" "site")))
                         (Const (Fin 1)))))
  /\ c_rs_rule pv_model "pv" "site" 1%Z
     = Ok (Constr (CLe (V (m_rs "pv" "site" 1%Z))
                       (Mul (Mul (Const (num_mul (Fin 5) (Fin 2)))
                                 (V (m_r_area "pv" "site")))
                            (Const (Fin (1 # 2))))))
  /\ c_rs_rule pv_model "pv" "site" 0%Z
     = Ok (Constr (CGe (V (m_rs "pv" "site" 0%Z))
                       (Mul (Mul (Const (num_mul (Fin 0) (Fin 2)))
                                 (V (m_r_area "pv" "site")))
                            (Const (Fin (1 # 2)))))).
Proof.
  split; [| split].
  - destruct (c_rs_rule_direction pv_model "demand" "site" 0%Z (Fin 1) (Fin 1) (-3))
      as [Hforced _].
    + simpl. auto.
    + reflexivity.
    + reflexivity.
    + reflexivity.
    + apply Hforced. reflexivity.
  - destruct (c_rs_rule_direction pv_model "pv" "site" 1%Z (Fin 2) (Fin (1 # 2)) 5)
      as [_ [Hupper _]].
    + simpl. auto.
    + reflexivity.
    + reflexivity.
    + reflexivity.
    + apply Hupper; reflexivity.
  - destruct (c_rs_rule_direction pv_model "pv" "site" 0%Z (Fin 2) (Fin (1 # 2)) 0)
      as [_ [_ Hlower]].
    + simpl. auto.
    + reflexivity.
    + reflexivity.
    + reflexivity.
    + apply Hlower; [reflexivity | discriminate].
Defined.

(** C3, counterexample.  The resource of the collector is 0 in the
    first timestep, which is non-negative, and [force_r] is not set; the
    rule generates the lower bound [rs >= available].  A resource flow
    of 1 satisfies it and violates the upper bound [rs <= available]. *)
Lemma c_rs_rule_zero_signal_counterexample :
  m_r pv_model "pv" "site" 0%Z = Fin 0
  /\ truthy (get_option pv_model "pv.constraints.force_r" None None) = false
  /\ exists available,
       c_rs_rule pv_model "pv" "site" 0%Z
       = Ok (Constr (CGe (V (m_rs "pv" "site" 0%Z)) available))
       /\ sat free_night (CGe (V (m_rs "pv" "site" 0%Z)) available) = true
       /\ sat free_night (CLe (V (m_rs "pv" "site" 0%Z)) available) = false.
Proof.
  split; [reflexivity |]. split; [reflexivity |].
  eexists. split; [vm_compute; reflexivity |].
  split; vm_compute; reflexivity.
Qed.

(** C4 (defect of the code).  The tank has [s_cap_max] 0, so the rule
    takes the branch that its comment calls the case where no storage is
    allowed and generates the instantaneous balance, in which no storage
    level occurs.  The storage capacity rule, however, follows
    [use_s_time] and lets the capacity reach
    [s_time_max * e_cap_max / e_eff_ref = 20]; nothing else constrains
    the level, and the solution that stores 5 is feasible. *)
Lemma no_storage_tank_stores_energy :
  py_eq_num (get_option tank_model "tank.constraints.s_cap_max" None None) (Fin 0)
  = true
  /\ c_s_balance_pc_rule tank_model "tank" "site" 0%Z
     = Ok (Constr
             (CEq (Const (Fin 0))
                  (Sub (Sub (V (m_rs "tank" "site" 0%Z))
                            (Div (Add (Const (Fin 0))
                                      (V (m_es_prod "power" "tank" "site" 0%Z)))
                                 (Const (Fin 1))))
                       (Mul (Add (Const (Fin 0))
                                 (V (m_es_con "power" "tank" "site" 0%Z)))
                            (Const (Fin 1))))))
  /\ c_s_cap_rule tank_model "tank" "site"
     = Ok (Constr (CLe (V (m_s_cap "tank" "site")) (Const (Fin 20))))
  /\ feasible tank_model tank_filled = true
  /\ ~ tank_filled (m_s "tank" "site" 0%Z) == 0.
Proof.
  split; [reflexivity |].
  split; [vm_compute; reflexivity |].
  split; [vm_compute; reflexivity |].
  split; [vm_compute; reflexivity |].
  vm_compute. intros H. discriminate H.
Qed.

Lemma s_minus_one_single model y x t :
  m_t model = [t] ->
  s_minus_one model y x t
  = match String.eqb (mode model) "operate", d_s_init model with
    | true, Some s_init => Ok (PN (s_init x y))
    | _, _ =>
        s_init <- to_num (get_option model (y ++ ".constraints.s_init") (Some x) None) ;;
        Ok (PN s_init)
    end.
Proof.
  intros Ht. unfold s_minus_one, order_dict. rewrite Ht. simpl.
  rewrite Z.eqb_refl. reflexivity.
Qed.

(** C6 (as amended).  On a horizon of a single timestep, for a
    technology with storage whose initial storage is [s0], with no
    resource flow and no carrier flow, the stored energy of every
    feasible solution is [s0] itself: no loss is applied to the initial
    storage. *)
Theorem single_step_storage (model : Model) (sol : assignment) (y : tech)
  (x : loc) (t : timestep) (s0 : Q) :
  m_t model = [t] ->
  In y (m_y_pc model) ->
  In x (m_x model) ->
  py_eq_num (get_option model (y ++ ".constraints.s_cap_max") None None) (Fin 0)
  = false ->
  match String.eqb (mode model) "operate", d_s_init model with
  | true, Some s_init => s_init x y = Fin s0
  | _, _ =>
      to_num (get_option model (y ++ ".constraints.s_init") (Some x) None)
      = Ok (Fin s0)
  end ->
  sol (m_rs y x t) == 0 ->
  (forall c, In c (m_c model) ->
             sol (m_es_prod c y x t) == 0 /\ sol (m_es_con c y x t) == 0) ->
  feasible model sol = true ->
  sol (m_s y x t) == s0.
Proof.
  intros Hhorizon Hy Hx Hcap Hinit Hrs Hflows Hf.
  assert (Ht : In t (m_t model)) by (rewrite Hhorizon; left; reflexivity).
  assert (Hcarry : s_minus_one model y x t = Ok (PN (Fin s0))).
  { rewrite (s_minus_one_single _ _ _ _ Hhorizon).
    destruct (mode model =? "operate")%string; destruct (d_s_init model);
      rewrite Hinit; reflexivity. }
  assert (Hprod : Qsum (map sol (es_prod_vars model y x t)) == 0).
  { apply Qsum_zero. intros q Hq. unfold es_prod_vars in Hq.
    rewrite map_map in Hq. apply in_map_iff in Hq.
    destruct Hq as [c [<- Hc]]. apply Hflows. exact Hc. }
  assert (Hcon : Qsum (map sol (es_con_vars model y x t)) == 0).
  { apply Qsum_zero. intros q Hq. unfold es_con_vars in Hq.
    rewrite map_map in Hq. apply in_map_iff in Hq.
    destruct Hq as [c [<- Hc]]. apply Hflows. exact Hc. }
  assert (Hvalue : forall prod,
             prod = Fin 0
             \/ prod = num_quot (Fin (Qsum (map sol (es_prod_vars model y x t))))
                                (get_e_eff model y x t) ->
             num_eqb (Fin (sol (m_s y x t)))
               (num_sub (num_sub (Fin (s0 + sol (m_rs y x t))) prod)
                  (num_mul (Fin (Qsum (map sol (es_con_vars model y x t))))
                           (get_e_eff model y x t))) = true ->
             sol (m_s y x t) == s0).
  { intros prod Hcases Heq.
    rewrite (idle_balance_value _ _ _ _ _ _ Hprod Hcon Hcases Heq), Hrs. ring. }
  pose proof (feasible_c_s_balance_pc model sol y x t) as Hsat.
  specialize (fun c => Hsat c Hf Hy Hx Ht).
  unfold c_s_balance_pc_rule in Hsat. rewrite Hcap, Hcarry in Hsat.
  destruct (num_is_zero (get_e_eff model y x t)) eqn:Hz.
  - destruct (e_eff_is_numpy model y).
    + destruct (py_truediv_numpy_zero sol
                  (py_sum (map (fun c => PE (V (m_es_prod c y x t))) (m_c model)))
                  _ Hz) as [r [Hr Hinf]].
      rewrite Hr in Hsat. simpl try_except in Hsat. simpl bind in Hsat.
      specialize (Hsat _ eq_refl).
      unfold sat in Hsat. cbn [eval] in Hsat.
      rewrite Hinf, (map_vars (fun c => m_es_prod c y x t)), eval_py_sum_vars
        in Hsat.
      exfalso. exact (idle_infinite_production _ _ _ _ Hprod Hsat).
    + rewrite (py_truediv_plain_zero _ _ Hz) in Hsat. simpl try_except in Hsat.
      simpl bind in Hsat. specialize (Hsat _ eq_refl).
      unfold sat in Hsat. cbn [eval] in Hsat. rewrite eval_consumed in Hsat.
      apply (Hvalue (Fin 0)); [left; reflexivity | exact Hsat].
  - destruct (py_div_nonzero
                (py_sum (map (fun c => PE (V (m_es_prod c y x t))) (m_c model)))
                _ Hz) as [r Hr].
    rewrite (py_truediv_nonzero _ _ _ Hz), Hr in Hsat.
    simpl try_except in Hsat. simpl bind in Hsat.
    specialize (Hsat _ eq_refl).
    unfold sat in Hsat. cbn [eval] in Hsat.
    rewrite eval_consumed, (eval_produced _ _ _ _ _ _ _ Hr) in Hsat.
    apply (Hvalue _ (or_intror eq_refl)). exact Hsat.
Qed.

Lemma single_step_storage_witness :
  charged_idle (m_s "battery" "site" 0%Z) == 4.
Proof.
  apply (single_step_storage one_step_battery charged_idle "battery" "site" 0%Z 4).
  - reflexivity.
  - simpl. auto.
  - simpl. auto.
  - reflexivity.
  - reflexivity.
  - reflexivity.
  - intros c Hc. split; reflexivity.
  - vm_compute. reflexivity.
Defined.

(** C6, counterexample.  The battery starts from 4 with a loss of one
    half per hour; over a single timestep of one hour with nothing
    flowing, storing 4 is feasible, and 4 is not [4 * (1 - 1/2)^1]. *)
Lemma single_step_storage_loss_counterexample :
  m_t one_step_battery = [0%Z]
  /\ m_time_res one_step_battery 0%Z = Fin (inject_Z 1)
  /\ get_option one_step_battery "battery.constraints.s_init" (Some "site") None
     = VNum (Fin 4)
  /\ get_option one_step_battery "battery.constraints.s_loss" None None
     = VNum (Fin (1 # 2))
  /\ feasible one_step_battery charged_idle = true
  /\ charged_idle (m_rs "battery" "site" 0%Z) == 0
  /\ charged_idle (m_es_prod "power" "battery" "site" 0%Z) == 0
  /\ charged_idle (m_es_con "power" "battery" "site" 0%Z) == 0
  /\ ~ charged_idle (m_s "battery" "site" 0%Z) == 4 * (1 - (1 # 2)) ^ 1.
Proof.
  repeat (split; [first [reflexivity | vm_compute; reflexivity] |]).
  vm_compute. intros H. discriminate H.
Qed.

(** ** Capacities *)

(** C5 (as amended).  The carrier conversion capacity [e_cap] follows
    the four-way rule, in this order: where the location does not permit
    the technology it is 0; else with an infinite maximum there is no
    constraint; else with [e_cap_max_force] or in mode operate it equals
    [e_cap_max * e_cap_max_scale]; else in mode plan it is at most that.
    The storage capacity [s_cap] is pinned with [s_cap_max_force] or in
    mode operate and bounded in mode plan, by [s_cap_max] or by the
    storage-time limit.  The resource capacity [r_cap] has no constraint
    for an infinite maximum, is bounded in mode plan and pinned in mode
    operate.  The collector area [r_area], where it is neither tied to
    [e_cap] nor disabled, is bounded in mode plan and pinned in mode
    operate. *)
Theorem capacity_rules (model : Model) (y : tech) (x : loc) :
  (forall permit e_max scale,
      locations_ix model x y = Ok permit ->
      to_num (get_option model (y ++ ".constraints.e_cap_max") (Some x) None)
      = Ok e_max ->
      to_num (get_option model (y ++ ".constraints.e_cap_max_scale") (Some x) None)
      = Ok scale ->
      let pinned :=
        truthy (get_option model (y ++ ".constraints.e_cap_max_force") (Some x) None)
        || String.eqb (mode model) "operate" in
      (num_eqb permit (Fin 1) = false ->
       c_e_cap_rule model y x
       = Ok (Constr (CEq (V (m_e_cap y x)) (Const (Fin 0)))))
      /\ (num_eqb permit (Fin 1) = true -> num_isinf e_max = true ->
          c_e_cap_rule model y x = Ok NoConstraint)
      /\ (num_eqb permit (Fin 1) = true -> num_isinf e_max = false ->
          pinned = true ->
          c_e_cap_rule model y x
          = Ok (Constr (CEq (V (m_e_cap y x)) (Const (num_mul e_max scale)))))
      /\ (num_eqb permit (Fin 1) = true -> num_isinf e_max = false ->
          pinned = false -> mode model = "plan" ->
          c_e_cap_rule model y x
          = Ok (Constr (CLe (V (m_e_cap y x)) (Const (num_mul e_max scale))))))
  /\ (forall s_max,
         (truthy (get_option model (y ++ ".constraints.use_s_time") (Some x) None)
          = false
          /\ to_num (get_option model (y ++ ".constraints.s_cap_max") (Some x) None)
             = Ok s_max)
         \/ (truthy (get_option model (y ++ ".constraints.use_s_time") (Some x) None)
             = true
             /\ exists hours e_max,
                 to_num (get_option model (y ++ ".constraints.s_time_max") (Some x) None)
                 = Ok hours
                 /\ to_num (get_option model (y ++ ".constraints.e_cap_max") (Some x) None)
                    = Ok e_max
                 /\ num_div (num_mul hours e_max) (get_eff_ref model "e" y None)
                    = Ok s_max) ->
         let pinned :=
           truthy (get_option model (y ++ ".constraints.s_cap_max_force") (Some x) None)
           || String.eqb (mode model) "operate" in
         (pinned = true ->
          c_s_cap_rule model y x
          = Ok (Constr (CEq (V (m_s_cap y x)) (Const s_max))))
         /\ (pinned = false -> mode model = "plan" ->
             c_s_cap_rule model y x
             = Ok (Constr (CLe (V (m_s_cap y x)) (Const s_max)))))
  /\ (forall r_max,
         to_num (get_option model (y ++ ".constraints.r_cap_max") (Some x) None)
         = Ok r_max ->
         (num_isinf r_max = true -> c_r_cap_rule model y x = Ok NoConstraint)
         /\ (num_isinf r_max = false -> mode model = "plan" ->
             c_r_cap_rule model y x
             = Ok (Constr (CLe (V (m_r_cap y x)) (Const r_max))))
         /\ (num_isinf r_max = false -> mode model = "operate" ->
             c_r_cap_rule model y x
             = Ok (Constr (CEq (V (m_r_cap y x)) (Const r_max)))))
  /\ (forall a_max,
         truthy (get_option model (y ++ ".constraints.r_area_per_e_cap") None None)
         = false ->
         is_False (get_option model (y ++ ".constraints.r_area_max") (Some x) None)
         = false ->
         to_num (get_option model (y ++ ".constraints.r_area_max") (Some x) None)
         = Ok a_max ->
         (mode model = "plan" ->
          c_r_area_rule model y x
          = Ok (Constr (CLe (V (m_r_area y x)) (Const a_max))))
         /\ (mode model = "operate" ->
             c_r_area_rule model y x
             = Ok (Constr (CEq (V (m_r_area y x)) (Const a_max))))).
Proof.
  split; [| split; [| split]].
  - intros permit e_max scale Hpermit Hmax Hscale pinned. subst pinned.
    unfold c_e_cap_rule, np_isinf. rewrite Hpermit, Hmax, Hscale. simpl bind.
    split; [| split; [| split]].
    + intros H. rewrite H. reflexivity.
    + intros H Hinf. rewrite H, Hinf. reflexivity.
    + intros H Hinf Hpin. rewrite H, Hinf, Hpin. reflexivity.
    + intros H Hinf Hpin Hmode. rewrite H, Hinf, Hpin, Hmode. reflexivity.
  - intros s_max Hmax pinned. subst pinned. unfold c_s_cap_rule.
    assert (Hlimit :
              (if truthy (get_option model (y ++ ".constraints.use_s_time") (Some x) None)
               then
                 s_time_max <- to_num (get_option model (y ++ ".constraints.s_time_max") (Some x) None) ;;
                 e_cap_max <- to_num (get_option model (y ++ ".constraints.e_cap_max") (Some x) None) ;;
                 num_div (num_mul s_time_max e_cap_max) (get_eff_ref model "e" y None)
               else to_num (get_option model (y ++ ".constraints.s_cap_max") (Some x) None))
              = Ok s_max).
    { destruct Hmax as [[Htime Hcap] | [Htime [hours [e_max [Hh [He Hdiv]]]]]];
        rewrite Htime.
      - exact Hcap.
      - rewrite Hh, He. exact Hdiv. }
    rewrite Hlimit. simpl bind. split.
    + intros Hpin. rewrite Hpin. reflexivity.
    + intros Hpin Hmode. rewrite Hpin, Hmode. reflexivity.
  - intros r_max Hmax. unfold c_r_cap_rule, np_isinf. rewrite Hmax. simpl bind.
    split; [| split].
    + intros Hinf. rewrite Hinf. reflexivity.
    + intros Hinf Hmode. rewrite Hinf, Hmode. reflexivity.
    + intros Hinf Hmode. rewrite Hinf, Hmode. reflexivity.
  - intros a_max Hratio Hoff Hmax. unfold c_r_area_rule.
    rewrite Hratio, Hoff, Hmax. split.
    + intros Hmode. rewrite Hmode. reflexivity.
    + intros Hmode. rewrite Hmode. reflexivity.
Qed.

Lemma capacity_rules_witness :
  c_e_cap_rule depot_model "store" "offsite"
  = Ok (Constr (CEq (V (m_e_cap "store" "offsite")) (Const (Fin 0))))
  /\ c_e_cap_rule pv_model "demand" "site" = Ok NoConstraint
  /\ c_e_cap_rule (with_mode depot_model "operate") "store" "site"
     = Ok (Constr (CEq (V (m_e_cap "store" "site"))
                       (Const (num_mul (Fin 10) (Fin 2)))))
  /\ c_e_cap_rule depot_model "store" "site"
     = Ok (Constr (CLe (V (m_e_cap "store" "site"))
                       (Const (num_mul (Fin 10) (Fin 2)))))
  /\ c_s_cap_rule (with_mode one_step_battery "operate") "battery" "site"
     = Ok (Constr (CEq (V (m_s_cap "battery" "site")) (Const (Fin 100))))
  /\ c_s_cap_rule tank_model "tank" "site"
     = Ok (Constr (CLe (V (m_s_cap "tank" "site"))
                       (Const (num_quot (num_mul (Fin 2) (Fin 10)) (Fin 1)))))
  /\ c_r_cap_rule pv_model "pv" "site" = Ok NoConstraint
  /\ c_r_cap_rule depot_model "store" "site"
     = Ok (Constr (CLe (V (m_r_cap "store" "site")) (Const (Fin 30))))
  /\ c_r_cap_rule (with_mode depot_model "operate") "store" "site"
     = Ok (Constr (CEq (V (m_r_cap "store" "site")) (Const (Fin 30))))
  /\ c_r_area_rule pv_model "pv" "site"
     = Ok (Constr (CLe (V (m_r_area "pv" "site")) (Const (Fin 50))))
  /\ c_r_area_rule (with_mode pv_model "operate") "pv" "site"
     = Ok (Constr (CEq (V (m_r_area "pv" "site")) (Const (Fin 50)))).
Proof.
  repeat apply conj.
  - destruct (capacity_rules depot_model "store" "offsite") as [He _].
    destruct (He (Fin 0) (Fin 10) (Fin 2) eq_refl eq_refl eq_refl) as [H _].
    exact (H eq_refl).
  - destruct (capacity_rules pv_model "demand" "site") as [He _].
    destruct (He (Fin 1) PInf (Fin 0) eq_refl eq_refl eq_refl) as [_ [H _]].
    exact (H eq_refl eq_refl).
  - destruct (capacity_rules (with_mode depot_model "operate") "store" "site")
      as [He _].
    destruct (He (Fin 1) (Fin 10) (Fin 2) eq_refl eq_refl eq_refl)
      as [_ [_ [H _]]].
    exact (H eq_refl eq_refl eq_refl).
  - destruct (capacity_rules depot_model "store" "site") as [He _].
    destruct (He (Fin 1) (Fin 10) (Fin 2) eq_refl eq_refl eq_refl)
      as [_ [_ [_ H]]].
    exact (H eq_refl eq_refl eq_refl eq_refl).
  - destruct (capacity_rules (with_mode one_step_battery "operate")
                "battery" "site") as [_ [Hs _]].
    destruct (Hs (Fin 100) (or_introl (conj eq_refl eq_refl))) as [H _].
    exact (H eq_refl).
  - destruct (capacity_rules tank_model "tank" "site") as [_ [Hs _]].
    destruct (Hs (num_quot (num_mul (Fin 2) (Fin 10)) (Fin 1))) as [_ H].
    + right. split; [reflexivity |].
      exists (Fin 2), (Fin 10). repeat split; reflexivity.
    + exact (H eq_refl eq_refl).
  - destruct (capacity_rules pv_model "pv" "site") as [_ [_ [Hr _]]].
    destruct (Hr PInf eq_refl) as [H _]. exact (H eq_refl).
  - destruct (capacity_rules depot_model "store" "site") as [_ [_ [Hr _]]].
    destruct (Hr (Fin 30) eq_refl) as [_ [H _]]. exact (H eq_refl eq_refl).
  - destruct (capacity_rules (with_mode depot_model "operate") "store" "site")
      as [_ [_ [Hr _]]].
    destruct (Hr (Fin 30) eq_refl) as [_ [_ H]]. exact (H eq_refl eq_refl).
  - destruct (capacity_rules pv_model "pv" "site") as [_ [_ [_ Ha]]].
    destruct (Ha (Fin 50) eq_refl eq_refl eq_refl) as [H _]. exact (H eq_refl).
  - destruct (capacity_rules (with_mode pv_model "operate") "pv" "site")
      as [_ [_ [_ Ha]]].
    destruct (Ha (Fin 50) eq_refl eq_refl eq_refl) as [_ H]. exact (H eq_refl).
Defined.

(** C5, counterexample.  The four-way rule does not hold for every
    capacity.  With an infinite [s_cap_max] the storage capacity rule
    still emits a constraint; at a location that does not permit the
    technology it emits the same bound instead of forcing 0; and the
    resource capacity rule reads no force flag: in mode plan it bounds
    [r_cap] although [r_cap_max_force] is set. *)
Lemma capacity_rules_uniform_counterexample :
  get_option depot_model "store.constraints.s_cap_max" (Some "site") None
  = VNum PInf
  /\ c_s_cap_rule depot_model "store" "site"
     = Ok (Constr (CLe (V (m_s_cap "store" "site")) (Const PInf)))
  /\ locations_ix depot_model "offsite" "store" = Ok (Fin 0)
  /\ c_s_cap_rule depot_model "store" "offsite"
     = Ok (Constr (CLe (V (m_s_cap "store" "offsite")) (Const PInf)))
  /\ get_option depot_model "store.constraints.r_cap_max_force" (Some "site") None
     = VBool true
  /\ mode depot_model = "plan"
  /\ c_r_cap_rule depot_model "store" "site"
     = Ok (Constr (CLe (V (m_r_cap "store" "site")) (Const (Fin 30)))).
Proof.
  repeat split; vm_compute; reflexivity.
Qed.

(** ** Costs *)

Lemma depreciation_rate_value (model : Model) (y : tech) (k : cost_class)
  (i : Q) (n : Z) :
  to_num (get_option model (y ++ ".depreciation.interest." ++ k) None
                     (Some (y ++ ".depreciation.interest.default")))
  = Ok (Fin i) ->
  to_num (get_option model (y ++ ".depreciation.plant_life") None None)
  = Ok (Fin (inject_Z n)) ->
  (0 < n)%Z ->
  (~ i == 0 -> ~ (1 + i) ^ n == 1) ->
  _depreciation_rate model y k
  = Ok (Fin (if Qeq_bool i 0 then 1 / inject_Z n
             else i * (1 + i) ^ n / ((1 + i) ^ n - 1))).
Proof.
  intros Hi Hn Hpos Hgrowth. unfold _depreciation_rate.
  rewrite (to_num_py_eq_num _ _ (Fin 0) Hi). simpl num_eqb.
  destruct (Qeq_bool i 0) eqn:Hzero.
  - rewrite Hn. simpl bind. unfold num_div, num_is_zero.
    assert (Hlife : Qeq_bool (inject_Z n) 0 = false).
    { apply Qeq_bool_false. unfold Qeq. simpl. lia. }
    rewrite Hlife. simpl. rewrite Hlife. reflexivity.
  - rewrite Hi, Hn. cbn [bind].
    change (num_add (Fin 1) (Fin i)) with (Fin (1 + i)).
    rewrite (num_pow_whole _ _ (Z.lt_le_incl _ _ Hpos)). cbn [bind].
    apply Qeq_bool_false in Hzero. specialize (Hgrowth Hzero).
    assert (Hden : Qeq_bool ((1 + i) ^ n - 1) 0 = false).
    { apply Qeq_bool_false. intros H. apply Hgrowth. lra. }
    unfold num_div, num_is_zero. simpl. rewrite Hden. reflexivity.
Qed.

(** C8. The construction cost constraint is
    [cost_con == rate * (sum of durations / 8760)
                 * (sum of capacity * unit cost over the applicable
                    capacities)],
    with the storage capacity for technologies in [y_pc], the resource
    capacity and collector area for technologies in [y_def_r], and the
    carrier capacity for all; [rate] is [1 / plant_life] for an interest
    of 0 and [i * (1 + i)^plant_life / ((1 + i)^plant_life - 1)]
    otherwise. *)
Theorem cost_con_depreciated (model : Model) (y : tech) (x : loc)
  (k : cost_class) (i total c_s c_r c_a c_e : Q) (n : Z) :
  to_num (get_option model (y ++ ".depreciation.interest." ++ k) None
                     (Some (y ++ ".depreciation.interest.default")))
  = Ok (Fin i) ->
  to_num (get_option model (y ++ ".depreciation.plant_life") None None)
  = Ok (Fin (inject_Z n)) ->
  (0 < n)%Z ->
  (~ i == 0 -> ~ (1 + i) ^ n == 1) ->
  num_sum (map (m_time_res model) (m_t model)) = Fin total ->
  (mem y (m_y_pc model) = true ->
   to_num (_cost model "s_cap" y k) = Ok (Fin c_s)) ->
  (mem y (m_y_def_r model) = true ->
   to_num (_cost model "r_cap" y k) = Ok (Fin c_r)
   /\ to_num (_cost model "r_area" y k) = Ok (Fin c_a)) ->
  to_num (_cost model "e_cap" y k) = Ok (Fin c_e) ->
  let rate :=
    if Qeq_bool i 0 then 1 / inject_Z n
    else i * (1 + i) ^ n / ((1 + i) ^ n - 1) in
  _depreciation_rate model y k = Ok (Fin rate)
  /\ exists c,
       c_cost_con_rule model y x k = Ok (Constr c)
       /\ forall sol,
            sat sol c = true
            <-> sol (m_cost_con y x k) ==
                rate * (total / 8760)
                * ((if mem y (m_y_pc model) then c_s * sol (m_s_cap y x) else 0)
                   + (if mem y (m_y_def_r model) then c_r * sol (m_r_cap y x) else 0)
                   + (if mem y (m_y_def_r model) then c_a * sol (m_r_area y x) else 0)
                   + c_e * sol (m_e_cap y x)).
Proof.
  intros Hi Hn Hpos Hgrowth Htotal Hs Hr He rate.
  pose proof (depreciation_rate_value model y k i n Hi Hn Hpos Hgrowth) as Hdep.
  fold rate in Hdep. split; [exact Hdep |].
  assert (Hyears : num_div (Fin total) (Fin 8760) = Ok (Fin (total / 8760)))
    by reflexivity.
  unfold c_cost_con_rule. rewrite Hdep, Htotal, Hyears, He.
  destruct (mem y (m_y_pc model)); destruct (mem y (m_y_def_r model));
    try rewrite (Hs eq_refl);
    try (destruct (Hr eq_refl) as [Hcap Harea]; rewrite Hcap, Harea);
    cbn [bind]; (eexists; split; [reflexivity |]);
    intros sol; simpl; apply Qeq_bool_iff.
Qed.

Lemma cost_con_depreciated_witness :
  (_depreciation_rate one_step_battery "battery" "monetary"
   = Ok (Fin (1 / inject_Z 25))
   /\ exists c,
        c_cost_con_rule one_step_battery "battery" "site" "monetary"
        = Ok (Constr c)
        /\ forall sol,
             sat sol c = true
             <-> sol (m_cost_con "battery" "site" "monetary") ==
                 1 / inject_Z 25 * (1 / 8760)
                 * (3 * sol (m_s_cap "battery" "site") + 0 + 0
                    + 7 * sol (m_e_cap "battery" "site")))
  /\
  _depreciation_rate financed_battery "battery" "monetary"
  = Ok (Fin ((1 # 10) * (1 + (1 # 10)) ^ 2 / ((1 + (1 # 10)) ^ 2 - 1)))
  /\ exists c,
       c_cost_con_rule financed_battery "battery" "site" "monetary"
       = Ok (Constr c)
       /\ forall sol,
            sat sol c = true
            <-> sol (m_cost_con "battery" "site" "monetary") ==
                (1 # 10) * (1 + (1 # 10)) ^ 2 / ((1 + (1 # 10)) ^ 2 - 1)
                * (3 / 8760)
                * (3 * sol (m_s_cap "battery" "site") + 0 + 0
                   + 7 * sol (m_e_cap "battery" "site")).
Proof.
  split.
  { apply (cost_con_depreciated one_step_battery "battery" "site" "monetary"
             0 1 3 0 0 7 25%Z).
    - reflexivity.
    - reflexivity.
    - lia.
    - intros H. exfalso. apply H. reflexivity.
    - reflexivity.
    - intros _. reflexivity.
    - intros H. discriminate H.
    - reflexivity. }
  apply (cost_con_depreciated financed_battery "battery" "site" "monetary"
           (1 # 10) 3 3 0 0 7 2%Z).
  - reflexivity.
  - reflexivity.
  - lia.
  - intros _ H. vm_compute in H. discriminate H.
  - reflexivity.
  - intros _. reflexivity.
  - intros H. discriminate H.
  - reflexivity.
Defined.

(** ** System balance *)

(** C9. For a carrier [c], a parent location [x] (a location of level
    1) and a timestep [t], the rule sums the produced and the consumed
    flow of [c] over the children of [x] and [x] itself, for all
    technologies; for the carrier power the sum is constrained to equal
    zero, for any other carrier to be non-negative. *)
Theorem system_balance (model : Model) (c : carrier) (x : loc) (t : timestep) :
  In x (get_parents model (Fin 1)) ->
  m_y model <> [] ->
  let fam := (get_children model x ++ [x])%list in
  let produced :=
    flat_map (fun xs => map (fun y => m_es_prod c y xs t) (m_y model)) fam in
  let consumed :=
    flat_map (fun xs => map (fun y => m_es_con c y xs t) (m_y model)) fam in
  exists k,
    c_system_balance_rule model c x t = Ok (Constr k)
    /\ forall sol,
         sat sol k = true
         <-> if String.eqb c "power"
             then Qsum (map sol produced) + Qsum (map sol consumed) == 0
             else 0 <= Qsum (map sol produced) + Qsum (map sol consumed).
Proof.
  intros Hparent Hy fam produced consumed.
  apply mem_In in Hparent.
  unfold c_system_balance_rule. rewrite Hparent. cbn [negb].
  fold fam.
  rewrite (flat_map_vars (fun xs y => m_es_prod c y xs t)).
  rewrite (flat_map_vars (fun xs y => m_es_con c y xs t)).
  fold produced consumed.
  assert (Hne : produced <> []).
  { apply (flat_map_nonempty (fun xs y => m_es_prod c y xs t) fam (m_y model) x).
    - unfold fam. apply in_or_app. right. left. reflexivity.
    - exact Hy. }
  destruct (py_sum_vars_PE produced Hne) as [e He].
  assert (Hvalue : forall sol,
             eval sol (Add e (to_expr (py_sum (map (fun v => PE (V v)) consumed))))
             = Fin (Qsum (map sol produced) + Qsum (map sol consumed))).
  { intros sol. cbn [eval]. rewrite eval_py_sum_vars.
    change e with (to_expr (PE e)). rewrite <- He, eval_py_sum_vars.
    reflexivity. }
  rewrite He. destruct (String.eqb c "power").
  - eexists. split; [reflexivity |]. intros sol.
    unfold sat. rewrite Hvalue. simpl. apply Qeq_bool_iff.
  - eexists. split; [reflexivity |]. intros sol.
    unfold sat. rewrite Hvalue. simpl. apply Qle_bool_iff.
Qed.

Lemma system_balance_witness :
  (exists k,
      c_system_balance_rule region_model "power" "region" 0%Z = Ok (Constr k)
      /\ forall sol,
           sat sol k = true
           <-> Qsum (map sol [m_es_prod "power" "battery" "town" 0%Z;
                              m_es_prod "power" "battery" "region" 0%Z])
               + Qsum (map sol [m_es_con "power" "battery" "town" 0%Z;
                                m_es_con "power" "battery" "region" 0%Z]) == 0)
  /\ (exists k,
         c_system_balance_rule region_model "heat" "region" 0%Z = Ok (Constr k)
         /\ forall sol,
              sat sol k = true
              <-> 0 <= Qsum (map sol [m_es_prod "heat" "battery" "town" 0%Z;
                                      m_es_prod "heat" "battery" "region" 0%Z])
                       + Qsum (map sol [m_es_con "heat" "battery" "town" 0%Z;
                                        m_es_con "heat" "battery" "region" 0%Z])).
Proof.
  split.
  - apply (system_balance region_model "power" "region" 0%Z).
    + simpl. auto.
    + discriminate.
  - apply (system_balance region_model "heat" "region" 0%Z).
    + simpl. auto.
    + discriminate.
Defined.

(** * Further properties of the rules *)

(** ** More constraints that hold at feasible points *)

Lemma feasible_generated model sol :
  feasible model sol = true ->
  exists balance build operational transmission costs system,
    node_energy_balance model = Ok balance
    /\ node_constraints_build model = Ok build
    /\ node_constraints_operational model = Ok operational
    /\ transmission_constraints model = Ok transmission
    /\ node_costs model = Ok costs
    /\ model_constraints model = Ok system
    /\ (forall c,
           In c balance \/ In c build \/ In c operational
           \/ In c transmission \/ In c costs \/ In c system ->
           sat sol c = true).
Proof.
  intros Hf. apply feasible_inv in Hf. destruct Hf as [cs [Hgen [Hsat _]]].
  split_generated Hgen.
  exists part, part0, part1, part2, part3, part4.
  repeat (split; [assumption |]).
  intros c Hc. apply Hsat. repeat rewrite in_app_iff. tauto.
Qed.

Lemma feasible_domain model sol v :
  feasible model sol = true -> In v (declared_vars model) ->
  in_domain sol v = true.
Proof.
  intros Hf Hv. apply feasible_inv in Hf. destruct Hf as [cs [_ [_ Hdom]]].
  apply Hdom. exact Hv.
Qed.

Lemma feasible_c_rs model sol y x t c :
  feasible model sol = true ->
  In y (m_y_def_r model) -> In x (m_x model) -> In t (m_t model) ->
  c_rs_rule model y x t = Ok (Constr c) ->
  sat sol c = true.
Proof.
  intros Hf Hy Hx Ht Hrule.
  destruct (feasible_generated _ _ Hf)
    as [balance [? [? [? [? [? [Hb [_ [_ [_ [_ [_ Hsat]]]]]]]]]]]].
  apply Hsat. left. unfold node_energy_balance in Hb. split_blocks Hb.
  assert (In c block).
  { eapply (Constraint_In _ _ _ (y, (x, t))); [exact Hblock | | exact Hrule].
    apply in_idx3; assumption. }
  in_app_solve.
Qed.

Lemma feasible_c_s_balance_transmission model sol y x t c :
  feasible model sol = true ->
  In y (m_y_trans model) -> In x (m_x model) -> In t (m_t model) ->
  c_s_balance_transmission_rule model y x t = Ok (Constr c) ->
  sat sol c = true.
Proof.
  intros Hf Hy Hx Ht Hrule.
  destruct (feasible_generated _ _ Hf)
    as [balance [? [? [? [? [? [Hb [_ [_ [_ [_ [_ Hsat]]]]]]]]]]]].
  apply Hsat. left. unfold node_energy_balance in Hb. split_blocks Hb.
  assert (In c block0).
  { eapply (Constraint_In _ _ _ (y, (x, t))); [exact Hblock0 | | exact Hrule].
    apply in_idx3; assumption. }
  in_app_solve.
Qed.

Lemma feasible_c_s_balance_conversion model sol y x t c :
  feasible model sol = true ->
  In y (m_y_conv model) -> In x (m_x model) -> In t (m_t model) ->
  c_s_balance_conversion_rule model y x t = Ok (Constr c) ->
  sat sol c = true.
Proof.
  intros Hf Hy Hx Ht Hrule.
  destruct (feasible_generated _ _ Hf)
    as [balance [? [? [? [? [? [Hb [_ [_ [_ [_ [_ Hsat]]]]]]]]]]]].
  apply Hsat. left. unfold node_energy_balance in Hb. split_blocks Hb.
  assert (In c block1).
  { eapply (Constraint_In _ _ _ (y, (x, t))); [exact Hblock1 | | exact Hrule].
    apply in_idx3; assumption. }
  in_app_solve.
Qed.

Lemma feasible_c_r_area model sol y x c :
  feasible model sol = true ->
  In y (m_y_def_r model) -> In x (m_x model) ->
  c_r_area_rule model y x = Ok (Constr c) ->
  sat sol c = true.
Proof.
  intros Hf Hy Hx Hrule.
  destruct (feasible_generated _ _ Hf)
    as [? [build [? [? [? [? [_ [Hb [_ [_ [_ [_ Hsat]]]]]]]]]]]].
  apply Hsat. right. left. unfold node_constraints_build in Hb. split_blocks Hb.
  assert (In c block1).
  { eapply (Constraint_In _ _ _ (y, x)); [exact Hblock1 | | exact Hrule].
    apply in_idx2; assumption. }
  in_app_solve.
Qed.

Lemma feasible_c_rs_max model sol y x t :
  feasible model sol = true ->
  In y (m_y_def_r model) -> In x (m_x model) -> In t (m_t model) ->
  (exists r, c_rs_max_upper_rule model y x t = Ok r
             /\ forall c, r = Constr c -> sat sol c = true)
  /\ (exists r, c_rs_max_lower_rule model y x t = Ok r
                /\ forall c, r = Constr c -> sat sol c = true).
Proof.
  intros Hf Hy Hx Ht.
  destruct (feasible_generated _ _ Hf)
    as [? [? [operational [? [? [? [_ [_ [Hb [_ [_ [_ Hsat]]]]]]]]]]]].
  unfold node_constraints_operational in Hb. split_blocks Hb.
  pose proof (in_idx3 _ _ _ _ _ _ Hy Hx Ht) as Hidx.
  split.
  - destruct (Constraint_inv _ _ _ _ Hblock Hidx) as [Hn | [c [Hc Hin]]].
    + eexists. split; [exact Hn |]. intros c Hc. discriminate Hc.
    + eexists. split; [exact Hc |]. intros c' Hc'. injection Hc' as <-.
      apply Hsat. right. right. left. in_app_solve.
  - destruct (Constraint_inv _ _ _ _ Hblock0 Hidx) as [Hn | [c [Hc Hin]]].
    + eexists. split; [exact Hn |]. intros c Hc. discriminate Hc.
    + eexists. split; [exact Hc |]. intros c' Hc'. injection Hc' as <-.
      apply Hsat. right. right. left. in_app_solve.
Qed.

Lemma feasible_c_es_prod_min model sol c y x t k :
  feasible model sol = true ->
  In c (m_c model) -> In y (m_y model) -> In x (m_x model) -> In t (m_t model) ->
  c_es_prod_min_rule model c y x t = Ok (Constr k) ->
  sat sol k = true.
Proof.
  intros Hf Hc Hy Hx Ht Hrule.
  destruct (feasible_generated _ _ Hf)
    as [? [? [operational [? [? [? [_ [_ [Hb [_ [_ [_ Hsat]]]]]]]]]]]].
  apply Hsat. right. right. left.
  unfold node_constraints_operational in Hb. split_blocks Hb.
  assert (In k block2).
  { eapply (Constraint_In _ _ _ (c, (y, (x, t)))); [exact Hblock2 | | exact Hrule].
    apply in_idx4; assumption. }
  in_app_solve.
Qed.

Lemma feasible_costs model sol y x k :
  feasible model sol = true ->
  In y (m_y model) -> In x (m_x model) -> In k (m_k model) ->
  (forall c, c_cost_rule model y x k = Ok (Constr c) -> sat sol c = true)
  /\ (forall c, c_cost_con_rule model y x k = Ok (Constr c) -> sat sol c = true)
  /\ (forall c, c_cost_op_rule model y x k = Ok (Constr c) -> sat sol c = true).
Proof.
  intros Hf Hy Hx Hk.
  destruct (feasible_generated _ _ Hf)
    as [? [? [? [? [costs [? [_ [_ [_ [_ [Hb [_ Hsat]]]]]]]]]]]].
  unfold node_costs in Hb. split_blocks Hb.
  pose proof (in_idx3 _ _ _ _ _ _ Hy Hx Hk) as Hidx.
  split; [| split]; intros c Hrule; apply Hsat; do 4 right; left.
  - pose proof (Constraint_In _ _ _ _ _ Hblock Hidx Hrule). in_app_solve.
  - pose proof (Constraint_In _ _ _ _ _ Hblock0 Hidx Hrule). in_app_solve.
  - pose proof (Constraint_In _ _ _ _ _ Hblock1 Hidx Hrule). in_app_solve.
Qed.

Lemma declared_es_prod model c y x t :
  In c (m_c model) -> In y (m_y model) -> In x (m_x model) -> In t (m_t model) ->
  In (m_es_prod c y x t) (declared_vars model).
Proof.
  intros Hc Hy Hx Ht. unfold declared_vars.
  do 3 (apply in_or_app; right). apply in_or_app. left.
  apply in_map_iff. exists (c, (y, (x, t))). split; [reflexivity |].
  apply in_idx4; assumption.
Qed.

Lemma declared_es_con model c y x t :
  In c (m_c model) -> In y (m_y model) -> In x (m_x model) -> In t (m_t model) ->
  In (m_es_con c y x t) (declared_vars model).
Proof.
  intros Hc Hy Hx Ht. unfold declared_vars.
  do 4 (apply in_or_app; right). apply in_or_app. left.
  apply in_map_iff. exists (c, (y, (x, t))). split; [reflexivity |].
  apply in_idx4; assumption.
Qed.

Lemma declared_s_cap model y x :
  In y (m_y_pc model) -> In x (m_x model) ->
  In (m_s_cap y x) (declared_vars model).
Proof.
  intros Hy Hx. unfold declared_vars.
  do 5 (apply in_or_app; right). apply in_or_app. left.
  apply in_map_iff. exists (y, x). split; [reflexivity |].
  apply in_idx2; assumption.
Qed.

Lemma declared_e_cap model y x :
  In y (m_y model) -> In x (m_x model) ->
  In (m_e_cap y x) (declared_vars model).
Proof.
  intros Hy Hx. unfold declared_vars.
  do 7 (apply in_or_app; right). apply in_or_app. left.
  apply in_map_iff. exists (y, x). split; [reflexivity |].
  apply in_idx2; assumption.
Qed.

Example pv_dispatch_feasible : feasible pv_model pv_dispatch = true.
Proof. vm_compute. reflexivity. Qed.

(** ** Conversion and transmission balances *)

Lemma conversion_rule_built (model : Model) (y : tech) (x : loc) (t : timestep)
  (c_prod c_source : carrier) (e : Q) :
  get_option model (y ++ ".carrier") None None = VStr c_prod ->
  get_option model (y ++ ".source_carrier") None None = VStr c_source ->
  get_e_eff model y x t = Fin e ->
  c_s_balance_conversion_rule model y x t
  = Ok (Constr (CEq (V (m_es_prod c_prod y x t))
                    (Mul (Mul (Const (Fin (-1))) (V (m_es_con c_source y x t)))
                         (Const (Fin e))))).
Proof.
  intros Hprod Hsource Heff.
  unfold c_s_balance_conversion_rule. rewrite Hprod, Hsource, Heff.
  reflexivity.
Qed.

(** X1. For a conversion technology the produced flow of its carrier
    equals minus the consumed flow of its source carrier times the
    efficiency, in every feasible solution. *)
Theorem conversion_balance (model : Model) (sol : assignment) (y : tech)
  (x : loc) (t : timestep) (c_prod c_source : carrier) (e : Q) :
  In y (m_y_conv model) -> In x (m_x model) -> In t (m_t model) ->
  get_option model (y ++ ".carrier") None None = VStr c_prod ->
  get_option model (y ++ ".source_carrier") None None = VStr c_source ->
  get_e_eff model y x t = Fin e ->
  c_s_balance_conversion_rule model y x t
  = Ok (Constr (CEq (V (m_es_prod c_prod y x t))
                    (Mul (Mul (Const (Fin (-1))) (V (m_es_con c_source y x t)))
                         (Const (Fin e)))))
  /\ (feasible model sol = true ->
      sol (m_es_prod c_prod y x t) == - sol (m_es_con c_source y x t) * e).
Proof.
  intros Hy Hx Ht Hprod Hsource Heff.
  pose proof (conversion_rule_built model y x t _ _ _ Hprod Hsource Heff)
    as Hrule.
  split; [exact Hrule |]. intros Hf.
  pose proof (feasible_c_s_balance_conversion _ _ _ _ _ _ Hf Hy Hx Ht Hrule) as H.
  simpl in H. apply Qeq_bool_iff in H. rewrite H. ring.
Qed.

Lemma conversion_balance_witness :
  c_s_balance_conversion_rule boiler_model "boiler" "site" 0%Z
  = Ok (Constr (CEq (V (m_es_prod "heat" "boiler" "site" 0%Z))
                    (Mul (Mul (Const (Fin (-1)))
                              (V (m_es_con "power" "boiler" "site" 0%Z)))
                         (Const (Fin 1)))))
  /\ all_zero (m_es_prod "heat" "boiler" "site" 0%Z)
     == - all_zero (m_es_con "power" "boiler" "site" 0%Z) * 1.
Proof.
  destruct (conversion_balance boiler_model all_zero "boiler" "site" 0%Z
              "heat" "power" 1) as [Hrule Hsol].
  - simpl. auto.
  - simpl. auto.
  - simpl. auto.
  - reflexivity.
  - reflexivity.
  - reflexivity.
  - split; [exact Hrule | apply Hsol; vm_compute; reflexivity].
Defined.

(** X2. A conversion technology whose source carrier differs from its
    carrier converts nothing: [c_es_con_max_rule] allows consumption of
    the declared carrier only, so the consumed source flow is 0 and with
    it the produced flow, in every feasible solution. *)
Theorem conversion_of_other_carrier_is_zero (model : Model) (sol : assignment)
  (y : tech) (x : loc) (t : timestep) (c_prod c_source : carrier) (e : Q) :
  In y (m_y_conv model) -> In y (m_y model) ->
  In x (m_x model) -> In t (m_t model) ->
  In c_source (m_c model) ->
  get_option model (y ++ ".carrier") None None = VStr c_prod ->
  get_option model (y ++ ".source_carrier") None None = VStr c_source ->
  c_source <> c_prod ->
  get_e_eff model y x t = Fin e ->
  feasible model sol = true ->
  sol (m_es_con c_source y x t) == 0
  /\ sol (m_es_prod c_prod y x t) == 0.
Proof.
  intros Hconv Hy Hx Ht Hc Hprod Hsource Hdiff Heff Hf.
  assert (Hcon : sol (m_es_con c_source y x t) == 0).
  { assert (Hrule : c_es_con_max_rule model c_source y x t
                    = Ok (Constr (CEq (V (m_es_con c_source y x t))
                                      (Const (Fin 0))))).
    { unfold c_es_con_max_rule. rewrite Hprod. simpl.
      apply String.eqb_neq in Hdiff. rewrite Hdiff, andb_false_r. reflexivity. }
    pose proof (feasible_c_es_con_max _ _ _ _ _ _ _ Hf Hc Hy Hx Ht Hrule) as H.
    simpl in H. apply Qeq_bool_iff. exact H. }
  split; [exact Hcon |].
  pose proof (conversion_rule_built model y x t _ _ _ Hprod Hsource Heff)
    as Hrule.
  pose proof (feasible_c_s_balance_conversion _ _ _ _ _ _ Hf Hconv Hx Ht Hrule)
    as H.
  simpl in H. apply Qeq_bool_iff in H. rewrite H, Hcon. ring.
Qed.

Lemma conversion_of_other_carrier_is_zero_witness :
  all_zero (m_es_con "power" "boiler" "site" 0%Z) == 0
  /\ all_zero (m_es_prod "heat" "boiler" "site" 0%Z) == 0.
Proof.
  apply (conversion_of_other_carrier_is_zero boiler_model all_zero
           "boiler" "site" 0%Z "heat" "power" 1).
  - simpl. auto.
  - simpl. auto.
  - simpl. auto.
  - simpl. auto.
  - simpl. auto.
  - reflexivity.
  - reflexivity.
  - discriminate.
  - reflexivity.
  - vm_compute. reflexivity.
Defined.

(** X3. For a transmission technology whose remote end is a
    transmission technology, the flow produced at the local end equals
    minus the flow consumed at the remote end times the efficiency, in
    every feasible solution; where the remote end is no transmission
    technology there is no constraint. *)
Theorem transmission_balance (model : Model) (sol : assignment) (y y_remote : tech)
  (x x_remote : loc) (t : timestep) (c : carrier) (e : Q) :
  In y (m_y_trans model) -> In x (m_x model) -> In t (m_t model) ->
  get_remotes model y x = (y_remote, x_remote) ->
  get_option model (y ++ ".carrier") None None = VStr c ->
  get_e_eff model y x t = Fin e ->
  (In y_remote (d_transmission_y model) ->
   feasible model sol = true ->
   sol (m_es_prod c y x t) == - sol (m_es_con c y_remote x_remote t) * e)
  /\ (~ In y_remote (d_transmission_y model) ->
      c_s_balance_transmission_rule model y x t = Ok NoConstraint).
Proof.
  intros Hy Hx Ht Hrem Hcar Heff. split.
  - intros Hremote Hf. apply mem_In in Hremote.
    assert (Hrule : c_s_balance_transmission_rule model y x t
                    = Ok (Constr (CEq (V (m_es_prod c y x t))
                                      (Mul (Mul (Const (Fin (-1)))
                                                (V (m_es_con c y_remote x_remote t)))
                                           (Const (Fin e)))))).
    { unfold c_s_balance_transmission_rule. rewrite Hrem, Hremote, Hcar, Heff.
      reflexivity. }
    pose proof (feasible_c_s_balance_transmission _ _ _ _ _ _ Hf Hy Hx Ht Hrule)
      as H.
    simpl in H. apply Qeq_bool_iff in H. rewrite H. ring.
  - intros Hremote. unfold c_s_balance_transmission_rule. rewrite Hrem.
    destruct (mem y_remote (d_transmission_y model)) eqn:E; [| reflexivity].
    apply mem_In in E. contradiction.
Qed.

Lemma transmission_balance_witness :
  link_at_three (m_es_prod "power" "hvdc:b" "a" 0%Z)
  == - link_at_three (m_es_con "power" "hvdc:a" "b" 0%Z) * 1.
Proof.
  destruct (transmission_balance grid_model link_at_three "hvdc:b" "hvdc:a"
              "a" "b" 0%Z "power" 1) as [Hbal _].
  - simpl. auto.
  - simpl. auto.
  - simpl. auto.
  - reflexivity.
  - reflexivity.
  - reflexivity.
  - apply Hbal; [simpl; auto | vm_compute; reflexivity].
Defined.

(** ** Operational bounds *)

(** X4. For a technology with a resource, a non-zero [r_eff] and a
    timestep of [hours] hours, the resource flow of every feasible
    solution lies between [-hours * r_cap / r_eff] and
    [hours * r_cap / r_eff]. *)
Theorem resource_flow_within_capacity (model : Model) (sol : assignment)
  (y : tech) (x : loc) (t : timestep) (eff hours : Q) :
  In y (m_y_def_r model) -> In x (m_x model) -> In t (m_t model) ->
  to_num (get_option model (y ++ ".constraints.r_eff") None None) = Ok (Fin eff) ->
  ~ eff == 0 ->
  m_time_res model t = Fin hours ->
  feasible model sol = true ->
  - hours * (sol (m_r_cap y x) / eff) <= sol (m_rs y x t)
  /\ sol (m_rs y x t) <= hours * (sol (m_r_cap y x) / eff).
Proof.
  intros Hy Hx Ht Heff Hnz Hres Hf.
  apply Qeq_bool_false in Hnz.
  destruct (feasible_c_rs_max _ _ _ _ _ Hf Hy Hx Ht)
    as [[up [Hup Hsup]] [low [Hlow Hslow]]].
  unfold c_rs_max_upper_rule in Hup. unfold c_rs_max_lower_rule in Hlow.
  rewrite Heff, Hres in Hup, Hlow. cbn [bind] in Hup, Hlow.
  unfold py_div, num_is_zero in Hup, Hlow.
  rewrite Hnz in Hup, Hlow. cbn [bind] in Hup, Hlow.
  injection Hup as <-. injection Hlow as <-.
  specialize (Hsup _ eq_refl). specialize (Hslow _ eq_refl).
  simpl in Hsup, Hslow. rewrite Hnz in Hsup, Hslow. simpl in Hsup, Hslow.
  apply Qle_bool_iff in Hsup. apply Qle_bool_iff in Hslow.
  split; [| exact Hsup].
  setoid_replace (- hours * (sol (m_r_cap y x) / eff))
    with (-1 * hours * (sol (m_r_cap y x) / eff)) by ring.
  exact Hslow.
Qed.

Lemma resource_flow_within_capacity_witness :
  - 1 * (pv_dispatch (m_r_cap "pv" "site") / (1 # 2))
  <= pv_dispatch (m_rs "pv" "site" 1%Z)
  /\ pv_dispatch (m_rs "pv" "site" 1%Z)
     <= 1 * (pv_dispatch (m_r_cap "pv" "site") / (1 # 2)).
Proof.
  apply (resource_flow_within_capacity pv_model pv_dispatch "pv" "site" 1%Z
           (1 # 2) 1).
  - simpl. auto.
  - simpl. auto.
  - simpl. auto.
  - reflexivity.
  - intros H. discriminate H.
  - reflexivity.
  - vm_compute. reflexivity.
Defined.

(** X5. The division by [r_eff] in the resource capacity rules is not
    guarded: for a technology with a resource whose [r_eff] is zero both
    rules raise [ZeroDivisionError], and no solution is feasible. *)
Theorem zero_r_eff_not_generated (model : Model) (sol : assignment) (y : tech)
  (x : loc) (t : timestep) (eff : num) :
  In y (m_y_def_r model) -> In x (m_x model) -> In t (m_t model) ->
  to_num (get_option model (y ++ ".constraints.r_eff") None None) = Ok eff ->
  num_is_zero eff = true ->
  c_rs_max_upper_rule model y x t = Raise ZeroDivisionError
  /\ c_rs_max_lower_rule model y x t = Raise ZeroDivisionError
  /\ feasible model sol = false.
Proof.
  intros Hy Hx Ht Heff Hz.
  assert (Hup : c_rs_max_upper_rule model y x t = Raise ZeroDivisionError).
  { unfold c_rs_max_upper_rule. rewrite Heff. cbn [bind].
    rewrite (py_div_zero _ _ Hz). reflexivity. }
  assert (Hlow : c_rs_max_lower_rule model y x t = Raise ZeroDivisionError).
  { unfold c_rs_max_lower_rule. rewrite Heff. cbn [bind].
    rewrite (py_div_zero _ _ Hz). reflexivity. }
  split; [exact Hup | split; [exact Hlow |]].
  destruct (feasible model sol) eqn:Hf; [| reflexivity].
  destruct (feasible_c_rs_max _ _ _ _ _ Hf Hy Hx Ht) as [[up [Hup' _]] _].
  rewrite Hup in Hup'. discriminate Hup'.
Qed.

Lemma zero_r_eff_not_generated_witness :
  c_rs_max_upper_rule stalled_pv_model "pv" "site" 0%Z = Raise ZeroDivisionError
  /\ c_rs_max_lower_rule stalled_pv_model "pv" "site" 0%Z
     = Raise ZeroDivisionError
  /\ feasible stalled_pv_model all_zero = false.
Proof.
  apply (zero_r_eff_not_generated stalled_pv_model all_zero "pv" "site" 0%Z
           (Fin 0)).
  - simpl. auto.
  - simpl. auto.
  - simpl. auto.
  - reflexivity.
  - reflexivity.
Defined.

(** X6. In every feasible solution and for every carrier, the produced
    flow of a technology lies between 0 and [hours * e_cap] and its
    consumed flow between [-hours * e_cap] and 0, where [hours >= 0] is
    the duration of the timestep. *)
Theorem carrier_flows_within_capacity (model : Model) (sol : assignment)
  (c : carrier) (y : tech) (x : loc) (t : timestep) (hours : Q) :
  In c (m_c model) -> In y (m_y model) -> In x (m_x model) -> In t (m_t model) ->
  m_time_res model t = Fin hours ->
  0 <= hours ->
  feasible model sol = true ->
  (0 <= sol (m_es_prod c y x t)
   /\ sol (m_es_prod c y x t) <= hours * sol (m_e_cap y x))
  /\ (- hours * sol (m_e_cap y x) <= sol (m_es_con c y x t)
      /\ sol (m_es_con c y x t) <= 0).
Proof.
  intros Hc Hy Hx Ht Hres Hhours Hf.
  pose proof (feasible_domain _ _ _ Hf (declared_es_prod _ _ _ _ _ Hc Hy Hx Ht))
    as Hprod0.
  pose proof (feasible_domain _ _ _ Hf (declared_es_con _ _ _ _ _ Hc Hy Hx Ht))
    as Hcon0.
  pose proof (feasible_domain _ _ _ Hf (declared_e_cap _ _ _ Hy Hx)) as Hcap0.
  unfold in_domain in Hprod0, Hcon0, Hcap0. simpl in Hprod0, Hcon0, Hcap0.
  apply Qle_bool_iff in Hprod0. apply Qle_bool_iff in Hcon0.
  apply Qle_bool_iff in Hcap0.
  assert (Hroom : 0 <= hours * sol (m_e_cap y x))
    by (apply Qmult_le_0_compat; assumption).
  pose proof (feasible_c_es_prod_max model sol c y x t) as Hpmax.
  pose proof (feasible_c_es_con_max model sol c y x t) as Hcmax.
  specialize (fun k => Hpmax k Hf Hc Hy Hx Ht).
  specialize (fun k => Hcmax k Hf Hc Hy Hx Ht).
  unfold c_es_prod_max_rule in Hpmax. unfold c_es_con_max_rule in Hcmax.
  rewrite Hres in Hpmax, Hcmax.
  split; split; try assumption.
  - destruct (py_eq_str c (get_option model (y ++ ".carrier") None None)).
    + specialize (Hpmax _ eq_refl). simpl in Hpmax.
      apply Qle_bool_iff in Hpmax. exact Hpmax.
    + specialize (Hpmax _ eq_refl). simpl in Hpmax.
      apply Qeq_bool_iff in Hpmax. rewrite Hpmax. exact Hroom.
  - destruct (is_True _ && py_eq_str c _).
    + specialize (Hcmax _ eq_refl). simpl in Hcmax.
      apply Qle_bool_iff in Hcmax.
      setoid_replace (- hours * sol (m_e_cap y x))
        with (-1 * hours * sol (m_e_cap y x)) by ring.
      exact Hcmax.
    + specialize (Hcmax _ eq_refl). simpl in Hcmax.
      apply Qeq_bool_iff in Hcmax. rewrite Hcmax. lra.
Qed.

Lemma carrier_flows_within_capacity_witness :
  (0 <= pv_dispatch (m_es_prod "power" "pv" "site" 0%Z)
   /\ pv_dispatch (m_es_prod "power" "pv" "site" 0%Z)
      <= 1 * pv_dispatch (m_e_cap "pv" "site"))
  /\ (- 1 * pv_dispatch (m_e_cap "pv" "site")
      <= pv_dispatch (m_es_con "power" "pv" "site" 0%Z)
      /\ pv_dispatch (m_es_con "power" "pv" "site" 0%Z) <= 0).
Proof.
  apply (carrier_flows_within_capacity pv_model pv_dispatch "power" "pv" "site"
           0%Z 1).
  - simpl. auto.
  - simpl. auto.
  - simpl. auto.
  - simpl. auto.
  - reflexivity.
  - discriminate.
  - vm_compute. reflexivity.
Defined.

(** X7. Where [e_cap_min_use] is set, the produced flow of the declared
    carrier is at least [hours * e_cap * e_cap_min_use] in every
    feasible solution; for any other carrier, or with [e_cap_min_use]
    unset, the rule gives no constraint. *)
Theorem minimum_use (model : Model) (sol : assignment) (c : carrier) (y : tech)
  (x : loc) (t : timestep) (hours : Q) :
  In c (m_c model) -> In y (m_y model) -> In x (m_x model) -> In t (m_t model) ->
  m_time_res model t = Fin hours ->
  let min_use := get_option model (y ++ ".constraints.e_cap_min_use") None None in
  let own := py_eq_str c (get_option model (y ++ ".carrier") None None) in
  (truthy min_use && own = false ->
   c_es_prod_min_rule model c y x t = Ok NoConstraint)
  /\ (forall share,
         truthy min_use && own = true ->
         to_num min_use = Ok (Fin share) ->
         feasible model sol = true ->
         hours * sol (m_e_cap y x) * share <= sol (m_es_prod c y x t)).
Proof.
  intros Hc Hy Hx Ht Hres min_use own. subst min_use own. split.
  - intros H. unfold c_es_prod_min_rule. rewrite H. reflexivity.
  - intros share H Hshare Hf.
    assert (Hrule : c_es_prod_min_rule model c y x t
                    = Ok (Constr (CGe (V (m_es_prod c y x t))
                                      (Mul (Mul (Const (Fin hours))
                                                (V (m_e_cap y x)))
                                           (Const (Fin share)))))).
    { unfold c_es_prod_min_rule. rewrite H, Hshare, Hres. reflexivity. }
    pose proof (feasible_c_es_prod_min _ _ _ _ _ _ _ Hf Hc Hy Hx Ht Hrule) as Hs.
    simpl in Hs. apply Qle_bool_iff in Hs. exact Hs.
Qed.

Lemma minimum_use_witness :
  c_es_prod_min_rule baseload_model "heat" "ccgt" "site" 0%Z = Ok NoConstraint
  /\ 1 * all_zero (m_e_cap "ccgt" "site") * (1 # 2)
     <= all_zero (m_es_prod "power" "ccgt" "site" 0%Z).
Proof.
  split.
  - destruct (minimum_use baseload_model all_zero "heat" "ccgt" "site" 0%Z 1)
      as [Hnone _].
    + simpl. auto.
    + simpl. auto.
    + simpl. auto.
    + simpl. auto.
    + reflexivity.
    + apply Hnone. reflexivity.
  - destruct (minimum_use baseload_model all_zero "power" "ccgt" "site" 0%Z 1)
      as [_ Hmin].
    + simpl. auto.
    + simpl. auto.
    + simpl. auto.
    + simpl. auto.
    + reflexivity.
    + apply Hmin; [reflexivity | reflexivity | vm_compute; reflexivity].
Defined.

(** X8. The stored energy of every feasible solution lies between 0 and
    the storage capacity, and the storage capacity does not exceed the
    configured [s_cap_max] (taken at the location, without
    [use_s_time]). *)
Theorem storage_level_bounded (model : Model) (sol : assignment) (y : tech)
  (x : loc) (t : timestep) (s_max : Q) :
  In y (m_y_pc model) -> In x (m_x model) -> In t (m_t model) ->
  truthy (get_option model (y ++ ".constraints.use_s_time") (Some x) None)
  = false ->
  to_num (get_option model (y ++ ".constraints.s_cap_max") (Some x) None)
  = Ok (Fin s_max) ->
  feasible model sol = true ->
  0 <= sol (m_s y x t)
  /\ sol (m_s y x t) <= sol (m_s_cap y x)
  /\ sol (m_s_cap y x) <= s_max.
Proof.
  intros Hy Hx Ht Htime Hmax Hf.
  split; [exact (feasible_s_nonneg _ _ _ _ _ Hf Hy Hx Ht) |].
  split; [exact (feasible_c_s_max _ _ _ _ _ Hf Hy Hx Ht) |].
  destruct (feasible_c_s_cap _ _ _ _ Hf Hy Hx) as [Hrule | [c [Hrule Hsat]]];
    unfold c_s_cap_rule in Hrule; rewrite Htime, Hmax in Hrule;
    cbn [bind] in Hrule;
    destruct (truthy _ || (mode model =? "operate")%string);
    try destruct (mode model =? "plan")%string; try discriminate Hrule;
    injection Hrule as <-; simpl in Hsat;
    first [apply Qeq_bool_iff in Hsat | apply Qle_bool_iff in Hsat]; lra.
Qed.

Lemma storage_level_bounded_witness :
  0 <= charged_idle (m_s "battery" "site" 0%Z)
  /\ charged_idle (m_s "battery" "site" 0%Z)
     <= charged_idle (m_s_cap "battery" "site")
  /\ charged_idle (m_s_cap "battery" "site") <= 100.
Proof.
  apply (storage_level_bounded one_step_battery charged_idle "battery" "site"
           0%Z 100).
  - simpl. auto.
  - simpl. auto.
  - simpl. auto.
  - reflexivity.
  - reflexivity.
  - vm_compute. reflexivity.
Defined.

(** ** Balances at the first timestep and without storage *)

Lemma s_minus_one_first model y x t rest :
  m_t model = t :: rest ->
  s_minus_one model y x t
  = match String.eqb (mode model) "operate", d_s_init model with
    | true, Some s_init => Ok (PN (s_init x y))
    | _, _ =>
        s_init <- to_num (get_option model (y ++ ".constraints.s_init") (Some x) None) ;;
        Ok (PN s_init)
    end.
Proof.
  intros Ht. unfold s_minus_one, order_dict. rewrite Ht. simpl.
  rewrite Z.eqb_refl. reflexivity.
Qed.

(** X9. At the first timestep of the horizon the balance of a
    technology with storage starts from the initial storage [s0], taken
    from the [s_init] table in mode operate when there is one and from
    the option [s_init] otherwise, and applies no loss to it:
    [s(t) = s0 + rs(t) - sum(es_prod) / e_eff - sum(es_con) * e_eff]. *)
Theorem s_balance_pc_first_timestep (model : Model) (y : tech) (x : loc)
  (t : timestep) (rest : list timestep) (s0 e : Q) :
  m_t model = t :: rest ->
  py_eq_num (get_option model (y ++ ".constraints.s_cap_max") None None) (Fin 0)
  = false ->
  match String.eqb (mode model) "operate", d_s_init model with
  | true, Some s_init => s_init x y = Fin s0
  | _, _ =>
      to_num (get_option model (y ++ ".constraints.s_init") (Some x) None)
      = Ok (Fin s0)
  end ->
  get_e_eff model y x t = Fin e ->
  ~ e == 0 ->
  exists c,
    c_s_balance_pc_rule model y x t = Ok (Constr c)
    /\ forall sol,
         sat sol c = true
         <-> sol (m_s y x t) ==
             s0 + sol (m_rs y x t)
             - Qsum (map sol (es_prod_vars model y x t)) / e
             - Qsum (map sol (es_con_vars model y x t)) * e.
Proof.
  intros Hhorizon Hcap Hinit Heff He.
  assert (Hz : num_is_zero (Fin e) = false) by (apply Qeq_bool_false; exact He).
  assert (Hcarry : s_minus_one model y x t = Ok (PN (Fin s0))).
  { rewrite (s_minus_one_first _ _ _ _ _ Hhorizon).
    destruct (mode model =? "operate")%string; destruct (d_s_init model);
      rewrite Hinit; reflexivity. }
  destruct (py_div_nonzero
              (py_sum (map (fun c => PE (V (m_es_prod c y x t))) (m_c model)))
              (Fin e) Hz) as [r Hr].
  unfold c_s_balance_pc_rule.
  rewrite Heff, (py_truediv_nonzero _ _ _ Hz), Hr, Hcap, Hcarry.
  cbn [try_except bind].
  eexists. split; [reflexivity |].
  intros sol. unfold sat.
  rewrite !eval_py_sub, ?eval_py_add, eval_consumed, (eval_produced _ _ _ _ _ _ _ Hr).
  simpl. simpl in Hz. rewrite Hz. simpl. apply Qeq_bool_iff.
Qed.

Lemma s_balance_pc_first_timestep_witness :
  exists c,
    c_s_balance_pc_rule two_step_battery "battery" "site" 0%Z = Ok (Constr c)
    /\ forall sol,
         sat sol c = true
         <-> sol (m_s "battery" "site" 0%Z) ==
             4 + sol (m_rs "battery" "site" 0%Z)
             - Qsum (map sol (es_prod_vars two_step_battery "battery" "site" 0%Z)) / 1
             - Qsum (map sol (es_con_vars two_step_battery "battery" "site" 0%Z)) * 1.
Proof.
  apply (s_balance_pc_first_timestep two_step_battery "battery" "site" 0%Z
           [1%Z] 4 1).
  - reflexivity.
  - reflexivity.
  - reflexivity.
  - reflexivity.
  - intros H. discriminate H.
Defined.

(** X10. For a technology whose [s_cap_max] is 0 the generated balance
    says that the resource flow equals the produced flow divided by the
    efficiency plus the consumed flow times the efficiency:
    [rs(t) = sum(es_prod) / e_eff + sum(es_con) * e_eff]. *)
Theorem s_balance_pc_without_storage (model : Model) (y : tech) (x : loc)
  (t : timestep) (e : Q) :
  py_eq_num (get_option model (y ++ ".constraints.s_cap_max") None None) (Fin 0)
  = true ->
  get_e_eff model y x t = Fin e ->
  ~ e == 0 ->
  exists c,
    c_s_balance_pc_rule model y x t = Ok (Constr c)
    /\ forall sol,
         sat sol c = true
         <-> sol (m_rs y x t) ==
             Qsum (map sol (es_prod_vars model y x t)) / e
             + Qsum (map sol (es_con_vars model y x t)) * e.
Proof.
  intros Hcap Heff He.
  assert (Hz : num_is_zero (Fin e) = false) by (apply Qeq_bool_false; exact He).
  destruct (py_div_nonzero
              (py_sum (map (fun c => PE (V (m_es_prod c y x t))) (m_c model)))
              (Fin e) Hz) as [r Hr].
  unfold c_s_balance_pc_rule.
  rewrite Heff, (py_truediv_nonzero _ _ _ Hz), Hr, Hcap.
  cbn [try_except bind].
  eexists. split; [reflexivity |].
  intros sol. unfold sat.
  rewrite !eval_py_sub, ?eval_py_add, eval_consumed, (eval_produced _ _ _ _ _ _ _ Hr).
  simpl. simpl in Hz. rewrite Hz. simpl. rewrite Qeq_bool_iff.
  split; intros H; lra.
Qed.

Lemma s_balance_pc_without_storage_witness :
  exists c,
    c_s_balance_pc_rule pv_model "pv" "site" 0%Z = Ok (Constr c)
    /\ forall sol,
         sat sol c = true
         <-> sol (m_rs "pv" "site" 0%Z) ==
             Qsum (map sol (es_prod_vars pv_model "pv" "site" 0%Z)) / 1
             + Qsum (map sol (es_con_vars pv_model "pv" "site" 0%Z)) * 1.
Proof.
  apply (s_balance_pc_without_storage pv_model "pv" "site" 0%Z 1).
  - reflexivity.
  - reflexivity.
  - intros H. discriminate H.
Defined.

(** ** Collector area and forced resources *)

(** X11. Where [r_area_per_e_cap] is set, the collector area of every
    feasible solution is [e_cap * (r_area_per_e_cap / eff_ref)], and the
    rule raises [ZeroDivisionError] for a reference efficiency of zero;
    where it is unset and [r_area_max] is [False], the area is 1 in
    either mode. *)
Theorem collector_area (model : Model) (sol : assignment) (y : tech) (x : loc) :
  In y (m_y_def_r model) -> In x (m_x model) ->
  let per_cap :=
    get_option model (y ++ ".constraints.r_area_per_e_cap") None None in
  (forall a r,
      truthy per_cap = true -> to_num per_cap = Ok (Fin a) ->
      get_eff_ref model "e" y (Some x) = Fin r -> ~ r == 0 ->
      feasible model sol = true ->
      sol (m_r_area y x) == sol (m_e_cap y x) * (a / r))
  /\ (forall a,
         truthy per_cap = true -> to_num per_cap = Ok a ->
         num_is_zero (get_eff_ref model "e" y (Some x)) = true ->
         c_r_area_rule model y x = Raise ZeroDivisionError)
  /\ (truthy per_cap = false ->
      is_False (get_option model (y ++ ".constraints.r_area_max") (Some x) None)
      = true ->
      feasible model sol = true ->
      sol (m_r_area y x) == 1).
Proof.
  intros Hy Hx per_cap. subst per_cap. split; [| split].
  - intros a r Htied Ha Href Hr Hf.
    apply Qeq_bool_false in Hr.
    assert (Hrule : c_r_area_rule model y x
                    = Ok (Constr (CEq (V (m_r_area y x))
                                      (Mul (V (m_e_cap y x))
                                           (Const (Fin (a / r))))))).
    { unfold c_r_area_rule. rewrite Htied, Ha, Href. cbn [bind].
      unfold num_div, num_is_zero. rewrite Hr. simpl. rewrite Hr. reflexivity. }
    pose proof (feasible_c_r_area _ _ _ _ _ Hf Hy Hx Hrule) as H.
    simpl in H. apply Qeq_bool_iff. exact H.
  - intros a Htied Ha Hz. unfold c_r_area_rule. rewrite Htied, Ha. cbn [bind].
    unfold num_div. rewrite Hz. reflexivity.
  - intros Hfree Hoff Hf.
    assert (Hrule : c_r_area_rule model y x
                    = Ok (Constr (CEq (V (m_r_area y x)) (Const (Fin 1))))).
    { unfold c_r_area_rule. rewrite Hfree, Hoff. reflexivity. }
    pose proof (feasible_c_r_area _ _ _ _ _ Hf Hy Hx Hrule) as H.
    simpl in H. apply Qeq_bool_iff. exact H.
Qed.

Lemma collector_area_witness :
  tied_dispatch (m_r_area "pv" "site")
  == tied_dispatch (m_e_cap "pv" "site") * (2 / 1)
  /\ c_r_area_rule (with_eff_ref tied_pv_model (Fin 0)) "pv" "site"
     = Raise ZeroDivisionError
  /\ pv_dispatch (m_r_area "demand" "site") == 1.
Proof.
  split; [| split].
  - destruct (collector_area tied_pv_model tied_dispatch "pv" "site")
      as [Htied _].
    + simpl. auto.
    + simpl. auto.
    + apply (Htied 2 1).
      * reflexivity.
      * reflexivity.
      * reflexivity.
      * intros H. discriminate H.
      * vm_compute. reflexivity.
  - destruct (collector_area (with_eff_ref tied_pv_model (Fin 0)) all_zero
                "pv" "site") as [_ [Hraise _]].
    + simpl. auto.
    + simpl. auto.
    + apply (Hraise (Fin 2)); reflexivity.
  - destruct (collector_area pv_model pv_dispatch "demand" "site")
      as [_ [_ Hunit]].
    + simpl. auto.
    + simpl. auto.
    + apply Hunit; [reflexivity | reflexivity | vm_compute; reflexivity].
Defined.

(** X12. A technology with [force_r] whose collector area is disabled
    ([r_area_max] is [False], no [r_area_per_e_cap]) has, in every
    feasible solution, exactly the resource flow
    [r * r_scale * r_eff]. *)
Theorem forced_resource_met (model : Model) (sol : assignment) (y : tech)
  (x : loc) (t : timestep) (signal scale eff : Q) :
  In y (m_y_def_r model) -> In x (m_x model) -> In t (m_t model) ->
  truthy (get_option model (y ++ ".constraints.force_r") None None) = true ->
  truthy (get_option model (y ++ ".constraints.r_area_per_e_cap") None None)
  = false ->
  is_False (get_option model (y ++ ".constraints.r_area_max") (Some x) None)
  = true ->
  to_num (get_option model (y ++ ".constraints.r_scale") (Some x) None)
  = Ok (Fin scale) ->
  to_num (get_option model (y ++ ".constraints.r_eff") None None) = Ok (Fin eff) ->
  m_r model y x t = Fin signal ->
  feasible model sol = true ->
  sol (m_rs y x t) == signal * scale * eff.
Proof.
  intros Hy Hx Ht Hforce Hfree Hoff Hscale Heff Hr Hf.
  assert (Harea : sol (m_r_area y x) == 1).
  { assert (Hrule : c_r_area_rule model y x
                    = Ok (Constr (CEq (V (m_r_area y x)) (Const (Fin 1))))).
    { unfold c_r_area_rule. rewrite Hfree, Hoff. reflexivity. }
    pose proof (feasible_c_r_area _ _ _ _ _ Hf Hy Hx Hrule) as H.
    simpl in H. apply Qeq_bool_iff. exact H. }
  assert (Hrule : c_rs_rule model y x t
                  = Ok (Constr (CEq (V (m_rs y x t))
                                    (Mul (Mul (Const (Fin (signal * scale)))
                                              (V (m_r_area y x)))
                                         (Const (Fin eff)))))).
  { unfold c_rs_rule. pose proof Hy as Hmem. apply mem_In in Hmem.
    rewrite Hmem, Hscale, Heff, Hr, Hforce. reflexivity. }
  pose proof (feasible_c_rs _ _ _ _ _ _ Hf Hy Hx Ht Hrule) as H.
  simpl in H. apply Qeq_bool_iff in H. rewrite H, Harea. ring.
Qed.

Lemma forced_resource_met_witness :
  pv_dispatch (m_rs "demand" "site" 0%Z) == -3 * 1 * 1.
Proof.
  apply (forced_resource_met pv_model pv_dispatch "demand" "site" 0%Z (-3) 1 1).
  - simpl. auto.
  - simpl. auto.
  - simpl. auto.
  - reflexivity.
  - reflexivity.
  - reflexivity.
  - reflexivity.
  - reflexivity.
  - reflexivity.
  - vm_compute. reflexivity.
Defined.

(** ** Cost accounting and the objective *)

(** X13. In every feasible solution the cost of a technology at a
    location is its construction cost plus its operating cost, and the
    operating cost is
    [om_frac * cost_con + om_fixed * e_cap
     + om_var * (production of the declared carrier over all timesteps)
     + om_fuel * (resource flow over all timesteps)]. *)
Theorem cost_accounts (model : Model) (sol : assignment) (y : tech) (x : loc)
  (k : cost_class) (declared : carrier) (om_frac om_fixed om_var om_fuel : Q) :
  In y (m_y model) -> In x (m_x model) -> In k (m_k model) ->
  get_option model (y ++ ".carrier") None None = VStr declared ->
  to_num (_cost model "om_frac" y k) = Ok (Fin om_frac) ->
  to_num (_cost model "om_fixed" y k) = Ok (Fin om_fixed) ->
  to_num (_cost model "om_var" y k) = Ok (Fin om_var) ->
  to_num (_cost model "om_fuel" y k) = Ok (Fin om_fuel) ->
  feasible model sol = true ->
  sol (m_cost y x k) == sol (m_cost_con y x k) + sol (m_cost_op y x k)
  /\ sol (m_cost_op y x k) ==
     om_frac * sol (m_cost_con y x k) + om_fixed * sol (m_e_cap y x)
     + om_var * Qsum (map sol (map (fun t => m_es_prod declared y x t) (m_t model)))
     + om_fuel * Qsum (map sol (map (fun t => m_rs y x t) (m_t model))).
Proof.
  intros Hy Hx Hk Hcar Hfrac Hfixed Hvar Hfuel Hf.
  destruct (feasible_costs _ _ _ _ _ Hf Hy Hx Hk) as [Hcost [_ Hop]].
  split.
  - specialize (Hcost _ eq_refl). simpl in Hcost.
    apply Qeq_bool_iff. exact Hcost.
  - unfold c_cost_op_rule in Hop.
    rewrite Hcar, Hfrac, Hfixed, Hvar, Hfuel in Hop. cbn [bind to_str] in Hop.
    specialize (Hop _ eq_refl). unfold sat in Hop.
    rewrite !eval_py_add, !eval_py_mul in Hop.
    rewrite (map_vars (fun t => m_es_prod declared y x t)) in Hop.
    rewrite (map_vars (fun t => m_rs y x t)) in Hop.
    rewrite !eval_py_sum_vars in Hop. simpl in Hop.
    apply Qeq_bool_iff. exact Hop.
Qed.

Lemma cost_accounts_witness :
  charged_idle (m_cost "battery" "site" "monetary")
  == charged_idle (m_cost_con "battery" "site" "monetary")
     + charged_idle (m_cost_op "battery" "site" "monetary")
  /\ charged_idle (m_cost_op "battery" "site" "monetary") ==
     0 * charged_idle (m_cost_con "battery" "site" "monetary")
     + 0 * charged_idle (m_e_cap "battery" "site")
     + 0 * Qsum (map charged_idle
                     (map (fun t => m_es_prod "power" "battery" "site" t)
                          (m_t one_step_battery)))
     + 0 * Qsum (map charged_idle
                     (map (fun t => m_rs "battery" "site" t)
                          (m_t one_step_battery))).
Proof.
  apply (cost_accounts one_step_battery charged_idle "battery" "site" "monetary"
           "power" 0 0 0 0).
  - simpl. auto.
  - simpl. auto.
  - simpl. auto.
  - reflexivity.
  - reflexivity.
  - reflexivity.
  - reflexivity.
  - reflexivity.
  - vm_compute. reflexivity.
Defined.

Lemma obj_rule_fold (model : Model) (weight : tech -> Q) (ys : list tech) :
  (forall y, In y ys ->
             to_num (get_option model (y ++ ".weight") None None)
             = Ok (Fin (weight y))) ->
  forall (acc : pyobj) (value : assignment -> Q),
    (forall sol, eval sol (to_expr acc) = Fin (value sol)) ->
    exists obj,
      fold_left
        (fun acc y =>
           total <- acc ;;
           weight <- to_num (get_option model (y ++ ".weight") None None) ;;
           Ok (py_add total
                 (py_mul (PN weight)
                         (py_sum (map (fun x => PE (V (m_cost y x "monetary")))
                                      (m_x model))))))
        ys (Ok acc) = Ok obj
      /\ forall sol,
           eval sol (to_expr obj)
           = Fin (fold_left
                    (fun a y =>
                       a + weight y
                           * Qsum (map sol (map (fun x => m_cost y x "monetary")
                                                (m_x model))))
                    ys (value sol)).
Proof.
  induction ys as [| y ys IH]; intros Hw acc value Hacc.
  - exists acc. split; [reflexivity | exact Hacc].
  - cbn [fold_left bind]. rewrite (Hw y (or_introl eq_refl)). cbn [bind].
    apply (IH (fun y' Hy' => Hw y' (or_intror Hy')) _
              (fun sol =>
                 value sol
                 + weight y
                   * Qsum (map sol (map (fun x => m_cost y x "monetary")
                                        (m_x model))))).
    intros sol.
    rewrite eval_py_add, eval_py_mul, Hacc.
    rewrite (map_vars (fun x => m_cost y x "monetary")), eval_py_sum_vars.
    reflexivity.
Qed.

(** X14. The objective is the sum over the technologies of their weight
    times their cost of class monetary summed over the locations; costs
    of any other class do not enter it. *)
Theorem objective_value (model : Model) (weight : tech -> Q) :
  (forall y, In y (m_y model) ->
             to_num (get_option model (y ++ ".weight") None None)
             = Ok (Fin (weight y))) ->
  exists obj,
    obj_rule model = Ok obj
    /\ forall sol,
         eval sol (to_expr obj)
         = Fin (fold_left
                  (fun a y =>
                     a + weight y
                         * Qsum (map sol (map (fun x => m_cost y x "monetary")
                                              (m_x model))))
                  (m_y model) 0).
Proof.
  intros Hw. unfold obj_rule.
  apply (obj_rule_fold model weight (m_y model) Hw (PN (Fin 0)) (fun _ => 0)).
  intros sol. reflexivity.
Qed.

Lemma objective_value_witness :
  exists obj,
    obj_rule boiler_model = Ok obj
    /\ forall sol,
         eval sol (to_expr obj)
         = Fin (0 + 1 * Qsum [sol (m_cost "boiler" "site" "monetary")]).
Proof.
  apply (objective_value boiler_model (fun _ => 1)).
  intros y [<- | []]. reflexivity.
Defined.

(** ** Depreciation *)

(** X16. With a plant life of zero the depreciation rate raises
    [ZeroDivisionError], whatever the interest is: [1 / 0] for an
    interest of 0, and a denominator [(1 + i)^0 - 1 = 0] otherwise. *)
Theorem depreciation_rate_zero_life (model : Model) (y : tech) (k : cost_class)
  (i life : Q) :
  to_num (get_option model (y ++ ".depreciation.interest." ++ k) None
                     (Some (y ++ ".depreciation.interest.default")))
  = Ok (Fin i) ->
  to_num (get_option model (y ++ ".depreciation.plant_life") None None)
  = Ok (Fin life) ->
  life == 0 ->
  _depreciation_rate model y k = Raise ZeroDivisionError.
Proof.
  intros Hi Hn Hlife.
  assert (Hnum : Qnum life = 0%Z).
  { unfold Qeq in Hlife. simpl in Hlife. lia. }
  assert (Hzero : Qeq_bool life 0 = true) by (apply Qeq_bool_iff; exact Hlife).
  unfold _depreciation_rate.
  rewrite (to_num_py_eq_num _ _ (Fin 0) Hi). simpl num_eqb.
  destruct (Qeq_bool i 0).
  - rewrite Hn. cbn [bind]. unfold num_div, num_is_zero. rewrite Hzero.
    reflexivity.
  - rewrite Hi, Hn. cbn [bind].
    assert (Hpow : num_pow (num_add (Fin 1) (Fin i)) (Fin life) = Ok (Fin 1)).
    { unfold num_pow, whole. rewrite Hnum. simpl. rewrite andb_false_r.
      reflexivity. }
    rewrite Hpow. cbn [bind]. reflexivity.
Qed.

Lemma depreciation_rate_zero_life_witness :
  _depreciation_rate lifeless_battery "battery" "monetary"
  = Raise ZeroDivisionError.
Proof.
  apply (depreciation_rate_zero_life lifeless_battery "battery" "monetary"
           (1 # 10) 0); reflexivity.
Defined.

(** ** Run modes *)

(** X17. The capacity rules know the modes plan and operate only.  In
    any other mode a rule that is neither forced nor cut short returns
    no constraint object at all: the storage capacity rule without
    [s_cap_max_force], the resource capacity rule with a finite maximum,
    the collector area rule with a plain maximum, and the carrier
    capacity rule at a permitted location with a finite maximum and
    without [e_cap_max_force]. *)
Theorem capacity_rules_unknown_mode (model : Model) (y : tech) (x : loc) :
  String.eqb (mode model) "plan" = false ->
  String.eqb (mode model) "operate" = false ->
  (forall s_max,
      truthy (get_option model (y ++ ".constraints.use_s_time") (Some x) None)
      = false ->
      to_num (get_option model (y ++ ".constraints.s_cap_max") (Some x) None)
      = Ok s_max ->
      truthy (get_option model (y ++ ".constraints.s_cap_max_force") (Some x) None)
      = false ->
      c_s_cap_rule model y x = Ok PyNone)
  /\ (forall r_max,
         to_num (get_option model (y ++ ".constraints.r_cap_max") (Some x) None)
         = Ok r_max ->
         num_isinf r_max = false ->
         c_r_cap_rule model y x = Ok PyNone)
  /\ (truthy (get_option model (y ++ ".constraints.r_area_per_e_cap") None None)
      = false ->
      is_False (get_option model (y ++ ".constraints.r_area_max") (Some x) None)
      = false ->
      c_r_area_rule model y x = Ok PyNone)
  /\ (forall e_max,
         locations_ix model x y = Ok (Fin 1) ->
         to_num (get_option model (y ++ ".constraints.e_cap_max") (Some x) None)
         = Ok e_max ->
         num_isinf e_max = false ->
         truthy (get_option model (y ++ ".constraints.e_cap_max_force") (Some x) None)
         = false ->
         c_e_cap_rule model y x = Ok PyNone).
Proof.
  intros Hplan Hoperate. split; [| split; [| split]].
  - intros s_max Htime Hmax Hforce. unfold c_s_cap_rule.
    rewrite Htime, Hmax, Hforce, Hplan, Hoperate. reflexivity.
  - intros r_max Hmax Hinf. unfold c_r_cap_rule, np_isinf.
    rewrite Hmax. cbn [bind]. rewrite Hinf, Hplan, Hoperate. reflexivity.
  - intros Hfree Hoff. unfold c_r_area_rule.
    rewrite Hfree, Hoff, Hplan, Hoperate. reflexivity.
  - intros e_max Hpermit Hmax Hinf Hforce. unfold c_e_cap_rule, np_isinf.
    rewrite Hpermit, Hmax. cbn [bind]. simpl negb.
    rewrite Hinf, Hforce, Hplan, Hoperate. reflexivity.
Qed.

Lemma capacity_rules_unknown_mode_witness :
  c_s_cap_rule (with_mode depot_model "design") "store" "site" = Ok PyNone
  /\ c_r_cap_rule (with_mode depot_model "design") "store" "site" = Ok PyNone
  /\ c_r_area_rule (with_mode depot_model "design") "store" "site" = Ok PyNone
  /\ c_e_cap_rule (with_mode depot_model "design") "store" "site" = Ok PyNone.
Proof.
  destruct (capacity_rules_unknown_mode (with_mode depot_model "design")
              "store" "site" eq_refl eq_refl) as [Hs [Hr [Ha He]]].
  repeat apply conj.
  - apply (Hs PInf); reflexivity.
  - apply (Hr (Fin 30)); reflexivity.
  - apply Ha; reflexivity.
  - apply (He (Fin 10)); reflexivity.
Defined.

(** ** Storage over the horizon *)

Lemma position_app (pre post : list timestep) (t : timestep) :
  ~ In t pre -> position (pre ++ t :: post)%list t = Some (List.length pre).
Proof.
  induction pre as [| a pre IH]; intros Hnot; simpl.
  - rewrite Z.eqb_refl. reflexivity.
  - assert (Ha : (a =? t)%Z = false).
    { apply Z.eqb_neq. intros ->. apply Hnot. left. reflexivity. }
    rewrite Ha, IH; [reflexivity |].
    intros H. apply Hnot. right. exact H.
Qed.

Lemma prev_of_successor model (pre post : list timestep) (u t : timestep) :
  m_t model = (pre ++ u :: t :: post)%list ->
  NoDup (m_t model) ->
  prev model t = Ok u.
Proof.
  intros Hts Hnodup. unfold prev. rewrite Hts in *.
  assert (Hnot : ~ In t (pre ++ [u])%list).
  { replace (pre ++ u :: t :: post)%list
      with ((pre ++ [u]) ++ t :: post)%list in Hnodup
      by (rewrite <- app_assoc; reflexivity).
    apply NoDup_remove_2 in Hnodup. intros H. apply Hnodup.
    apply in_or_app. left. exact H. }
  replace (pre ++ u :: t :: post)%list
    with ((pre ++ [u]) ++ t :: post)%list at 1
    by (rewrite <- app_assoc; reflexivity).
  rewrite (position_app _ _ _ Hnot).
  rewrite List.length_app. simpl. rewrite Nat.add_1_r.
  rewrite nth_error_app2 by lia. rewrite Nat.sub_diag. reflexivity.
Qed.

(** With nothing flowing at a timestep, the level at that timestep is the
    value of the carry-over term. *)
Lemma idle_level model sol y x t (carry : pyobj) (a : Q) :
  In y (m_y_pc model) -> In x (m_x model) -> In t (m_t model) ->
  py_eq_num (get_option model (y ++ ".constraints.s_cap_max") None None) (Fin 0)
  = false ->
  s_minus_one model y x t = Ok carry ->
  eval sol (to_expr carry) = Fin a ->
  sol (m_rs y x t) == 0 ->
  (forall c, In c (m_c model) ->
             sol (m_es_prod c y x t) == 0 /\ sol (m_es_con c y x t) == 0) ->
  feasible model sol = true ->
  sol (m_s y x t) == a.
Proof.
  intros Hy Hx Ht Hcap Hcarry Ha Hrs Hflows Hf.
  assert (Hprod : Qsum (map sol (es_prod_vars model y x t)) == 0).
  { apply Qsum_zero. intros q Hq. unfold es_prod_vars in Hq.
    rewrite map_map in Hq. apply in_map_iff in Hq.
    destruct Hq as [c [<- Hc]]. apply Hflows. exact Hc. }
  assert (Hcon : Qsum (map sol (es_con_vars model y x t)) == 0).
  { apply Qsum_zero. intros q Hq. unfold es_con_vars in Hq.
    rewrite map_map in Hq. apply in_map_iff in Hq.
    destruct Hq as [c [<- Hc]]. apply Hflows. exact Hc. }
  assert (Hvalue : forall prod,
             prod = Fin 0
             \/ prod = num_quot (Fin (Qsum (map sol (es_prod_vars model y x t))))
                                (get_e_eff model y x t) ->
             num_eqb (Fin (sol (m_s y x t)))
               (num_sub
                  (num_sub (Fin (a + sol (m_rs y x t))) prod)
                  (num_mul (Fin (Qsum (map sol (es_con_vars model y x t))))
                           (get_e_eff model y x t))) = true ->
             sol (m_s y x t) == a).
  { intros prod Hcases Heq.
    rewrite (idle_balance_value _ _ _ _ _ _ Hprod Hcon Hcases Heq), Hrs. ring. }
  pose proof (feasible_c_s_balance_pc model sol y x t) as Hsat.
  specialize (fun c => Hsat c Hf Hy Hx Ht).
  unfold c_s_balance_pc_rule in Hsat. rewrite Hcap, Hcarry in Hsat.
  destruct (num_is_zero (get_e_eff model y x t)) eqn:Hz.
  - destruct (e_eff_is_numpy model y).
    + destruct (py_truediv_numpy_zero sol
                  (py_sum (map (fun c => PE (V (m_es_prod c y x t))) (m_c model)))
                  _ Hz) as [r [Hr Hinf]].
      rewrite Hr in Hsat. cbn [try_except bind] in Hsat.
      specialize (Hsat _ eq_refl).
      unfold sat in Hsat.
      rewrite !eval_py_sub, eval_py_add, Hinf, Ha in Hsat.
      rewrite (map_vars (fun c => m_es_prod c y x t)), eval_py_sum_vars in Hsat.
      exfalso. exact (idle_infinite_production _ _ _ _ Hprod Hsat).
    + rewrite (py_truediv_plain_zero _ _ Hz) in Hsat.
      cbn [try_except exn_eqb bind] in Hsat.
      specialize (Hsat _ eq_refl).
      unfold sat in Hsat.
      rewrite !eval_py_sub, eval_py_add, eval_consumed, Ha in Hsat.
      apply (Hvalue (Fin 0)); [left; reflexivity | exact Hsat].
  - destruct (py_div_nonzero
                (py_sum (map (fun c => PE (V (m_es_prod c y x t))) (m_c model)))
                _ Hz) as [r Hr].
    rewrite (py_truediv_nonzero _ _ _ Hz), Hr in Hsat.
    cbn [try_except bind] in Hsat.
    specialize (Hsat _ eq_refl).
    unfold sat in Hsat.
    rewrite !eval_py_sub, eval_py_add, eval_consumed,
      (eval_produced _ _ _ _ _ _ _ Hr), Ha in Hsat.
    apply (Hvalue _ (or_intror eq_refl)). exact Hsat.
Qed.

(** X18. A storage left alone loses energy step by step: with no
    resource flow and no carrier flow over the whole horizon, the level
    of every feasible solution at a timestep is the initial storage
    times [(1 - s_loss)^duration(u)] for every timestep [u] before it.
    The first timestep holds the initial storage itself, and the
    duration of a timestep acts on the level of the next one. *)
Theorem idle_storage_decay (model : Model) (sol : assignment) (y : tech)
  (x : loc) (loss s0 : Q) (hours : timestep -> Z) :
  NoDup (m_t model) ->
  In y (m_y_pc model) -> In x (m_x model) ->
  py_eq_num (get_option model (y ++ ".constraints.s_cap_max") None None) (Fin 0)
  = false ->
  to_num (get_option model (y ++ ".constraints.s_loss") None None) = Ok (Fin loss) ->
  match String.eqb (mode model) "operate", d_s_init model with
  | true, Some s_init => s_init x y = Fin s0
  | _, _ =>
      to_num (get_option model (y ++ ".constraints.s_init") (Some x) None)
      = Ok (Fin s0)
  end ->
  (forall t, In t (m_t model) ->
             m_time_res model t = Fin (inject_Z (hours t)) /\ (0 <= hours t)%Z) ->
  (forall t, In t (m_t model) ->
             sol (m_rs y x t) == 0
             /\ forall c, In c (m_c model) ->
                          sol (m_es_prod c y x t) == 0
                          /\ sol (m_es_con c y x t) == 0) ->
  feasible model sol = true ->
  forall pre t post,
    m_t model = (pre ++ t :: post)%list ->
    sol (m_s y x t)
    == s0 * fold_left (fun kept u => kept * (1 - loss) ^ hours u) pre 1.
Proof.
  intros Hnodup Hy Hx Hcap Hloss Hinit Hres Hidle Hf pre.
  induction pre as [| u pre IH] using rev_ind; intros t post Hts.
  - assert (Ht : In t (m_t model)) by (rewrite Hts; left; reflexivity).
    destruct (Hidle t Ht) as [Hrs Hflows].
    assert (Hcarry : s_minus_one model y x t = Ok (PN (Fin s0))).
    { rewrite (s_minus_one_first _ _ _ _ _ Hts).
      destruct (mode model =? "operate")%string; destruct (d_s_init model);
        rewrite Hinit; reflexivity. }
    rewrite (idle_level model sol y x t _ s0 Hy Hx Ht Hcap Hcarry eq_refl
               Hrs Hflows Hf).
    simpl. ring.
  - rewrite <- app_assoc in Hts. simpl in Hts.
    assert (Ht : In t (m_t model)).
    { rewrite Hts. apply in_or_app. right. right. left. reflexivity. }
    assert (Hu : In u (m_t model)).
    { rewrite Hts. apply in_or_app. right. left. reflexivity. }
    destruct (Hidle t Ht) as [Hrs Hflows].
    destruct (Hres u Hu) as [Hdur Hnonneg].
    pose proof (prev_of_successor model pre post u t Hts Hnodup) as Hprev.
    assert (Hcarry : s_minus_one model y x t
                     = Ok (PE (Mul (Const (Fin ((1 - loss) ^ hours u)))
                                   (V (m_s y x u))))).
    { destruct (prev_order_dict _ _ _ Hprev) as [pos [Hpos Hgt]].
      unfold s_minus_one. rewrite Hpos. cbn [bind]. rewrite Hgt.
      rewrite Hloss, Hprev. cbn [bind]. rewrite Hdur.
      change (num_sub (Fin 1) (Fin loss)) with (Fin (1 - loss)).
      rewrite (num_pow_whole _ _ Hnonneg). reflexivity. }
    rewrite (idle_level model sol y x t _ ((1 - loss) ^ hours u * sol (m_s y x u))
               Hy Hx Ht Hcap Hcarry eq_refl Hrs Hflows Hf).
    rewrite (IH u (t :: post) Hts).
    rewrite fold_left_app. simpl. ring.
Qed.

Lemma idle_storage_decay_witness :
  half_decay (m_s "battery" "site" 1%Z)
  == 4 * fold_left (fun kept u => kept * (1 - (1 # 2)) ^ (if (u =? 0)%Z then 1 else 2)%Z)
                   [0%Z] 1.
Proof.
  apply (idle_storage_decay two_step_battery half_decay "battery" "site"
           (1 # 2) 4 (fun u => if (u =? 0)%Z then 1 else 2)%Z)
    with (post := []).
  - change (NoDup [0%Z; 1%Z]).
    apply NoDup_cons; [simpl; intros [H | []]; discriminate H |].
    apply NoDup_cons; [simpl; tauto | apply NoDup_nil].
  - simpl. auto.
  - simpl. auto.
  - reflexivity.
  - reflexivity.
  - reflexivity.
  - intros t [<- | [<- | []]]; split; first [reflexivity | simpl; lia].
  - intros t Ht. split; [reflexivity |]. intros c Hc. split; reflexivity.
  - vm_compute. reflexivity.
  - reflexivity.
Defined.

(** ** Production against the configured capacity *)

Lemma feasible_c_e_cap model sol y x :
  feasible model sol = true ->
  In y (m_y model) -> In x (m_x model) ->
  c_e_cap_rule model y x = Ok NoConstraint
  \/ exists c, c_e_cap_rule model y x = Ok (Constr c) /\ sat sol c = true.
Proof.
  intros Hf Hy Hx.
  destruct (feasible_generated _ _ Hf)
    as [? [build [? [? [? [? [_ [Hb [_ [_ [_ [_ Hsat]]]]]]]]]]]].
  unfold node_constraints_build in Hb. split_blocks Hb.
  destruct (Constraint_inv _ _ _ (y, x) Hblock2 (in_idx2 _ _ _ _ Hy Hx))
    as [Hn | [c [Hc Hin]]].
  - left. exact Hn.
  - right. exists c. split; [exact Hc |]. apply Hsat. right. left. in_app_solve.
Qed.

(** X19. Where the location permits the technology and its
    [e_cap_max] is finite, the carrier capacity of every feasible
    solution is at most [e_cap_max * e_cap_max_scale], and the produced
    flow of any carrier in a timestep of [hours >= 0] hours is at most
    [hours * e_cap_max * e_cap_max_scale]. *)
Theorem production_within_configured_capacity (model : Model)
  (sol : assignment) (c : carrier) (y : tech) (x : loc) (t : timestep)
  (e_max scale hours : Q) :
  In c (m_c model) -> In y (m_y model) -> In x (m_x model) -> In t (m_t model) ->
  locations_ix model x y = Ok (Fin 1) ->
  to_num (get_option model (y ++ ".constraints.e_cap_max") (Some x) None)
  = Ok (Fin e_max) ->
  to_num (get_option model (y ++ ".constraints.e_cap_max_scale") (Some x) None)
  = Ok (Fin scale) ->
  m_time_res model t = Fin hours ->
  0 <= hours ->
  feasible model sol = true ->
  sol (m_e_cap y x) <= e_max * scale
  /\ sol (m_es_prod c y x t) <= hours * (e_max * scale).
Proof.
  intros Hc Hy Hx Ht Hpermit Hmax Hscale Hres Hhours Hf.
  assert (Hcap : sol (m_e_cap y x) <= e_max * scale).
  { destruct (feasible_c_e_cap _ _ _ _ Hf Hy Hx) as [Hrule | [k [Hrule Hsat]]];
      unfold c_e_cap_rule, np_isinf in Hrule;
      rewrite Hpermit, Hmax, Hscale in Hrule; cbn [bind] in Hrule;
      simpl in Hrule;
      destruct (truthy _ || (mode model =? "operate")%string);
      try destruct (mode model =? "plan")%string; try discriminate Hrule;
      injection Hrule as <-; simpl in Hsat;
      first [apply Qeq_bool_iff in Hsat | apply Qle_bool_iff in Hsat]; lra. }
  split; [exact Hcap |].
  assert (Hprod : sol (m_es_prod c y x t) <= hours * sol (m_e_cap y x)).
  { pose proof (feasible_c_es_prod_max model sol c y x t) as Hpmax.
    specialize (fun k => Hpmax k Hf Hc Hy Hx Ht).
    unfold c_es_prod_max_rule in Hpmax. rewrite Hres in Hpmax.
    pose proof (feasible_domain _ _ _ Hf (declared_e_cap _ _ _ Hy Hx)) as Hcap0.
    unfold in_domain in Hcap0. simpl in Hcap0. apply Qle_bool_iff in Hcap0.
    destruct (py_eq_str c (get_option model (y ++ ".carrier") None None)).
    - specialize (Hpmax _ eq_refl). simpl in Hpmax.
      apply Qle_bool_iff in Hpmax. exact Hpmax.
    - specialize (Hpmax _ eq_refl). simpl in Hpmax.
      apply Qeq_bool_iff in Hpmax. rewrite Hpmax.
      apply Qmult_le_0_compat; assumption. }
  apply (Qle_trans _ _ _ Hprod).
  rewrite (Qmult_comm hours (sol (m_e_cap y x))), (Qmult_comm hours (e_max * scale)).
  apply Qmult_le_compat_r; assumption.
Qed.

Lemma production_within_configured_capacity_witness :
  pv_dispatch (m_e_cap "pv" "site") <= 10 * 1
  /\ pv_dispatch (m_es_prod "power" "pv" "site" 0%Z) <= 1 * (10 * 1).
Proof.
  apply (production_within_configured_capacity pv_model pv_dispatch
           "power" "pv" "site" 0%Z 10 1 1).
  - simpl. auto.
  - simpl. auto.
  - simpl. auto.
  - simpl. auto.
  - reflexivity.
  - reflexivity.
  - reflexivity.
  - reflexivity.
  - discriminate.
  - vm_compute. reflexivity.
Defined.

(** ** Zero efficiency of a technology with an efficiency series *)

(** X20. For a technology in [m.y_def_e_eff] the efficiency is the
    value of the Param [m.e_eff]; where it is exactly zero the division
    raises [ZeroDivisionError], which the rule catches: the production
    term of the generated balance is the constant 0, whatever the flows
    are, and the rule fails only where the carry-over term fails. *)
Theorem zero_efficiency_production (model : Model) (y : tech) (x : loc)
  (t : timestep) :
  In y (m_y_def_e_eff model) ->
  num_is_zero (m_e_eff model y x t) = true ->
  let consumed :=
    to_expr (py_mul (py_sum (map (fun c => PE (V (m_es_con c y x t))) (m_c model)))
                    (PN (m_e_eff model y x t))) in
  let no_storage :=
    py_eq_num (get_option model (y ++ ".constraints.s_cap_max") None None) (Fin 0) in
  (no_storage = true ->
   c_s_balance_pc_rule model y x t
   = Ok (Constr (CEq (Const (Fin 0))
                     (Sub (Sub (V (m_rs y x t)) (Const (Fin 0))) consumed))))
  /\ (no_storage = false ->
      forall carried, s_minus_one model y x t = Ok carried ->
      c_s_balance_pc_rule model y x t
      = Ok (Constr (CEq (V (m_s y x t))
                        (Sub (Sub (Add (to_expr carried) (V (m_rs y x t)))
                                  (Const (Fin 0)))
                             consumed))))
  /\ (no_storage = false ->
      forall e, s_minus_one model y x t = Raise e ->
      c_s_balance_pc_rule model y x t = Raise e).
Proof.
  intros Hy Hzero consumed no_storage. subst consumed no_storage.
  apply mem_In in Hy.
  unfold c_s_balance_pc_rule, e_eff_is_numpy, get_e_eff. rewrite Hy.
  cbn [negb]. rewrite (py_truediv_plain_zero _ _ Hzero).
  simpl try_except. simpl bind.
  split; [| split].
  - intros H. rewrite H. reflexivity.
  - intros H carried Hs. rewrite H, Hs. destruct carried; reflexivity.
  - intros H e Hs. rewrite H, Hs. reflexivity.
Qed.

Lemma zero_efficiency_production_witness :
  c_s_balance_pc_rule
    (with_def_e_eff (with_efficiency one_step_battery (Fin 0)) ["battery"])
    "battery" "site" 0%Z
  = Ok (Constr
          (CEq (V (m_s "battery" "site" 0%Z))
               (Sub (Sub (Add (Const (Fin 4)) (V (m_rs "battery" "site" 0%Z)))
                         (Const (Fin 0)))
                    (Mul (Add (Const (Fin 0))
                              (V (m_es_con "power" "battery" "site" 0%Z)))
                         (Const (Fin 0))))))
  /\ c_s_balance_pc_rule
       (with_def_e_eff (with_efficiency tank_model (Fin 0)) ["tank"])
       "tank" "site" 0%Z
     = Ok (Constr
             (CEq (Const (Fin 0))
                  (Sub (Sub (V (m_rs "tank" "site" 0%Z)) (Const (Fin 0)))
                       (Mul (Add (Const (Fin 0))
                                 (V (m_es_con "power" "tank" "site" 0%Z)))
                            (Const (Fin 0)))))).
Proof.
  split.
  - destruct (zero_efficiency_production
                (with_def_e_eff (with_efficiency one_step_battery (Fin 0))
                   ["battery"])
                "battery" "site" 0%Z) as [_ [Hstorage _]].
    + simpl. auto.
    + reflexivity.
    + exact (Hstorage eq_refl (PN (Fin 4)) eq_refl).
  - destruct (zero_efficiency_production
                (with_def_e_eff (with_efficiency tank_model (Fin 0)) ["tank"])
                "tank" "site" 0%Z) as [Hnone _].
    + simpl. auto.
    + reflexivity.
    + exact (Hnone eq_refl).
Defined.
